(** * Daily Journal (journal.py): a shallow embedding and its properties

    The development follows the layout of the script:
    - [Text]: Python [str] values as sequences of code points, with the
      string methods the script calls ([strip], [in], [==]);
    - [Codec]: what [open(JOURNAL_FILE, "r"/"w")] does to the text on
      its way from and to the bytes of the file (UTF-8, newlines);
    - [Json]: [json.dump(..., indent=2)] and [json.load];
    - [Journal]: the functions of journal.py over an explicit world
      (heap of list objects, disk, standard input and output, clock).
    The menu ([print_menu], [main]) only dispatches to these functions
    and is not embedded. *)

From Stdlib Require Import List NArith ZArith QArith Bool Lia.
From Stdlib.Strings Require Import String Ascii Byte.
From Stdlib Require Import DecimalString.
Import ListNotations.
Local Close Scope Q_scope.
Set Warnings "-register-all".
Local Open Scope N_scope.

(* ================================================================== *)
(** ** Text: Python strings *)
(* ================================================================== *)

Module Text.

(** A Python [str] is a sequence of code points (0 .. 0x10FFFF). *)
Definition codepoint := N.
Definition pystr := list codepoint.

Definition ord (a : ascii) : codepoint := N_of_ascii a.

(** A string literal of the script. *)
Definition lit (s : string) : pystr := map ord (list_ascii_of_string s).

(** [a == b] on strings. *)
Fixpoint str_eqb (a b : pystr) : bool :=
  match a, b with
  | [], [] => true
  | x :: a', y :: b' => (x =? y) && str_eqb a' b'
  | _, _ => false
  end.

(** [x in xs] for a list of strings, as in [mood in VALID_MOODS]. *)
Fixpoint str_mem (x : pystr) (xs : list pystr) : bool :=
  match xs with
  | [] => false
  | y :: ys => str_eqb x y || str_mem x ys
  end.

(** [str.isspace] for one code point: the whitespace [str.strip()]
    removes. *)
Definition isspace (c : codepoint) : bool :=
  ((9 <=? c) && (c <=? 13)) || ((28 <=? c) && (c <=? 32))
  || (c =? 0x85) || (c =? 0xA0) || (c =? 0x1680)
  || ((0x2000 <=? c) && (c <=? 0x200A))
  || (c =? 0x2028) || (c =? 0x2029) || (c =? 0x202F)
  || (c =? 0x205F) || (c =? 0x3000).

Fixpoint lstrip (s : pystr) : pystr :=
  match s with
  | c :: r => if isspace c then lstrip r else s
  | [] => []
  end.

Definition rstrip (s : pystr) : pystr := rev (lstrip (rev s)).

(** [s.strip()] *)
Definition strip (s : pystr) : pystr := rstrip (lstrip s).

Fixpoint startswith (p s : pystr) : bool :=
  match p, s with
  | [], _ => true
  | x :: p', y :: s' => (x =? y) && startswith p' s'
  | _ :: _, [] => false
  end.

(** [needle in hay] on strings: substring containment. *)
Fixpoint str_in (needle hay : pystr) : bool :=
  startswith needle hay
  || match hay with
     | [] => false
     | _ :: t => str_in needle t
     end.

(** [str.lower] on a string of ASCII characters. *)
Definition lower_ascii (s : pystr) : pystr :=
  map (fun c => if (65 <=? c) && (c <=? 90) then c + 32 else c) s.

(** The characters [json.dump] writes: line feed and printable ASCII. *)
Definition plain (c : codepoint) : Prop := c = 10 \/ (32 <= c /\ c <= 126).

(** Surrogate code points. *)
Definition is_high_surrogate (c : codepoint) : bool :=
  (0xD800 <=? c) && (c <=? 0xDBFF).
Definition is_low_surrogate (c : codepoint) : bool :=
  (0xDC00 <=? c) && (c <=? 0xDFFF).

(** The strings Python's decoders build: every code point is in range
    and no high surrogate is directly followed by a low one (a decoder
    joins such a pair into one code point above 0xFFFF). *)
Fixpoint wf_str (s : pystr) : Prop :=
  match s with
  | [] => True
  | c :: r =>
      c < 0x110000
      /\ match r with
         | d :: _ => ~ (is_high_surrogate c = true /\ is_low_surrogate d = true)
         | [] => True
         end
      /\ wf_str r
  end.

End Text.
Import Text.

(* ================================================================== *)
(** ** Codec: text files *)
(* ================================================================== *)

Module Codec.

Definition bytes := list byte.

Definition is_cont (b : byte) : bool :=
  (0x80 <=? Byte.to_N b) && (Byte.to_N b <=? 0xBF).

Definition low6 (b : byte) : N := Byte.to_N b - 0x80.

(** Strict UTF-8 decoding, as done by a file opened in text mode for
    reading: [None] is [UnicodeDecodeError]. Overlong forms, encoded
    surrogates and values above 0x10FFFF are rejected. *)
Fixpoint utf8_decode (bs : bytes) : option pystr :=
  match bs with
  | [] => Some []
  | b0 :: r =>
    let n0 := Byte.to_N b0 in
    if n0 <? 0x80 then option_map (cons n0) (utf8_decode r)
    else if n0 <? 0xC2 then None
    else if n0 <? 0xE0 then
      match r with
      | b1 :: r1 =>
        if is_cont b1
        then option_map (cons ((n0 - 0xC0) * 64 + low6 b1)) (utf8_decode r1)
        else None
      | _ => None
      end
    else if n0 <? 0xF0 then
      match r with
      | b1 :: b2 :: r2 =>
        let c := (n0 - 0xE0) * 4096 + low6 b1 * 64 + low6 b2 in
        if is_cont b1 && is_cont b2 && (0x800 <=? c)
           && negb ((0xD800 <=? c) && (c <=? 0xDFFF))
        then option_map (cons c) (utf8_decode r2)
        else None
      | _ => None
      end
    else if n0 <? 0xF5 then
      match r with
      | b1 :: b2 :: b3 :: r3 =>
        let c := (n0 - 0xF0) * 262144 + low6 b1 * 4096 + low6 b2 * 64 + low6 b3 in
        if is_cont b1 && is_cont b2 && is_cont b3
           && (0x10000 <=? c) && (c <=? 0x10FFFF)
        then option_map (cons c) (utf8_decode r3)
        else None
      | _ => None
      end
    else None
  end.

Definition byte_of (n : N) : byte :=
  match Byte.of_N n with Some b => b | None => x00 end.

(** UTF-8 encoding of one code point; [None] is [UnicodeEncodeError]
    (surrogates cannot be encoded). *)
Definition utf8_encode_cp (c : codepoint) : option bytes :=
  if c <? 0x80 then Some [byte_of c]
  else if c <? 0x800 then Some [byte_of (0xC0 + c / 64); byte_of (0x80 + c mod 64)]
  else if c <? 0x10000 then
    if (0xD800 <=? c) && (c <=? 0xDFFF) then None
    else Some [byte_of (0xE0 + c / 4096); byte_of (0x80 + c / 64 mod 64);
               byte_of (0x80 + c mod 64)]
  else if c <? 0x110000 then
    Some [byte_of (0xF0 + c / 262144); byte_of (0x80 + c / 4096 mod 64);
          byte_of (0x80 + c / 64 mod 64); byte_of (0x80 + c mod 64)]
  else None.

Fixpoint utf8_encode (s : pystr) : option bytes :=
  match s with
  | [] => Some []
  | c :: r =>
    match utf8_encode_cp c, utf8_encode r with
    | Some bs, Some rest => Some (bs ++ rest)
    | _, _ => None
    end
  end.

(** Universal newlines on reading ([newline=None]): CR LF and a lone
    CR both become LF. Writing leaves LF as it is (POSIX). *)
Fixpoint translate_newlines (s : pystr) : pystr :=
  match s with
  | [] => []
  | c :: r =>
    if c =? 13 then
      match r with
      | d :: r' => if d =? 10 then 10 :: translate_newlines r'
                   else 10 :: translate_newlines r
      | [] => [10]
      end
    else c :: translate_newlines r
  end.

(** [f.read()] on a file opened with [open(path, "r")]. *)
Definition read_text (bs : bytes) : option pystr :=
  option_map translate_newlines (utf8_decode bs).

End Codec.

(* ================================================================== *)
(** ** Json: the [json] module as journal.py uses it *)
(* ================================================================== *)

Module Json.

(** The values [json.load] builds and [json.dump] accepts. A float is
    kept as the literal it was read from (its value is never inspected
    by the script); a dict keeps its insertion order. *)
Inductive pyval : Type :=
| VNone
| VBool (b : bool)
| VInt (z : Z)
| VFloat (literal : pystr)
| VStr (s : pystr)
| VList (items : list pyval)
| VDict (pairs : list (pystr * pyval)).

(** *** Encoding: [json.dump(obj, f, indent=2)] *)

Definition hexdigit (d : N) : codepoint :=
  if d <? 10 then 48 + d else 87 + d.

(** ['{0:04x}'.format(n)] *)
Definition hex4 (n : N) : pystr :=
  [hexdigit (n / 4096 mod 16); hexdigit (n / 256 mod 16);
   hexdigit (n / 16 mod 16); hexdigit (n mod 16)].

Definition backslash_u (n : N) : pystr := 92 :: 117 :: hex4 n.

(** One character of [encode_basestring_ascii] ([ensure_ascii] is on
    by default): everything outside [' '..'~'], the quote and the
    backslash are escaped; code points above 0xFFFF become a surrogate
    pair of escapes. *)
Definition escape_char (c : codepoint) : pystr :=
  if c =? 34 then [92; 34]
  else if c =? 92 then [92; 92]
  else if c =? 10 then [92; 110]
  else if c =? 13 then [92; 114]
  else if c =? 9 then [92; 116]
  else if c =? 12 then [92; 102]
  else if c =? 8 then [92; 98]
  else if (32 <=? c) && (c <=? 126) then [c]
  else if c <? 0x10000 then backslash_u c
  else
    let n := c - 0x10000 in
    backslash_u (N.lor 0xD800 (N.land (N.shiftr n 10) 0x3FF))
    ++ backslash_u (N.lor 0xDC00 (N.land n 0x3FF)).

Definition encode_basestring_ascii (s : pystr) : pystr :=
  34 :: flat_map escape_char s ++ [34].

(** ['\n' + ' ' * (indent * level)] with [indent = 2] *)
Definition newline_indent (level : nat) : pystr :=
  10 :: repeat 32 (2 * level)%nat.

(** [int.__repr__] *)
Definition int_repr (z : Z) : pystr :=
  lit (NilZero.string_of_int (Z.to_int z)).

Section Encoder.

(** [float.__repr__] of the float a literal denotes (floating point is
    not modelled; entries never hold a float). *)
Variable float_repr : pystr -> pystr.

(** [_iterencode] with [indent=2], item separator [','] and key
    separator [': ']; [level] is [_current_indent_level]. *)
Fixpoint iterencode (v : pyval) (level : nat) : pystr :=
  match v with
  | VNone => lit "null"
  | VBool true => lit "true"
  | VBool false => lit "false"
  | VInt z => int_repr z
  | VFloat l => float_repr l
  | VStr s => encode_basestring_ascii s
  | VList [] => lit "[]"
  | VList (x :: xs) =>
      91 :: newline_indent (S level) ++ iterencode x (S level)
      ++ (fix more (l : list pyval) : pystr :=
            match l with
            | [] => []
            | y :: ys =>
                44 :: newline_indent (S level) ++ iterencode y (S level)
                ++ more ys
            end) xs
      ++ newline_indent level ++ [93]
  | VDict [] => lit "{}"
  | VDict ((k, x) :: ps) =>
      123 :: newline_indent (S level)
      ++ encode_basestring_ascii k ++ lit ": " ++ iterencode x (S level)
      ++ (fix more (l : list (pystr * pyval)) : pystr :=
            match l with
            | [] => []
            | (k', y) :: ys =>
                44 :: newline_indent (S level)
                ++ encode_basestring_ascii k' ++ lit ": "
                ++ iterencode y (S level) ++ more ys
            end) ps
      ++ newline_indent level ++ [125]
  end.

(** The items of a list after the first, as [iterencode] writes them. *)
Fixpoint more_items (l : list pyval) (level : nat) : pystr :=
  match l with
  | [] => []
  | y :: ys =>
      44 :: newline_indent level ++ iterencode y level ++ more_items ys level
  end.

(** The text [json.dump(obj, f, indent=2)] writes to [f]. *)
Definition dumps (v : pyval) : pystr := iterencode v 0.

End Encoder.

(** *** Decoding: [json.load] *)

(** Outcome of a scanning function: a value and the text after it,
    [Invalid] (the scanner raises [JSONDecodeError], or [StopIteration]
    which its caller turns into [JSONDecodeError]), or [Starved] (the
    recursion budget of the model ran out; see [loads]). *)
Inductive scan (A : Type) : Type :=
| Scanned (a : A) (rest : pystr)
| Invalid
| Starved.
Arguments Scanned {A} a rest.
Arguments Invalid {A}.
Arguments Starved {A}.

(** [WHITESPACE_STR]: space, tab, line feed, carriage return. *)
Definition is_ws (c : codepoint) : bool :=
  (c =? 32) || (c =? 9) || (c =? 10) || (c =? 13).

Fixpoint skip_ws (s : pystr) : pystr :=
  match s with
  | c :: r => if is_ws c then skip_ws r else s
  | [] => []
  end.

Definition unhexdigit (c : codepoint) : option N :=
  if (48 <=? c) && (c <=? 57) then Some (c - 48)
  else if (97 <=? c) && (c <=? 102) then Some (c - 87)
  else if (65 <=? c) && (c <=? 70) then Some (c - 55)
  else None.

(** The four hex digits after a backslash-u. *)
Definition unhex4 (a b c d : codepoint) : option N :=
  match unhexdigit a, unhexdigit b, unhexdigit c, unhexdigit d with
  | Some x3, Some x2, Some x1, Some x0 =>
      Some (((x3 * 16 + x2) * 16 + x1) * 16 + x0)
  | _, _, _, _ => None
  end.

(** [BACKSLASH]: the one-letter escapes. *)
Definition backslash (e : codepoint) : option codepoint :=
  if e =? 34 then Some 34
  else if e =? 92 then Some 92
  else if e =? 47 then Some 47
  else if e =? 98 then Some 8
  else if e =? 102 then Some 12
  else if e =? 110 then Some 10
  else if e =? 114 then Some 13
  else if e =? 116 then Some 9
  else None.

Definition join_surrogates (hi lo : N) : codepoint :=
  0x10000 + N.lor (N.shiftl (hi - 0xD800) 10) (lo - 0xDC00).

Definition push (c : codepoint) (r : option (pystr * pystr)) :
  option (pystr * pystr) :=
  match r with
  | Some (str, rest) => Some (c :: str, rest)
  | None => None
  end.

(** What follows an escaped high surrogate does not read as an escaped
    low surrogate. *)
Definition no_low_ahead (r2 : pystr) : Prop :=
  forall l1 l2 l3 l4 r3,
    r2 = 92 :: 117 :: l1 :: l2 :: l3 :: l4 :: r3 ->
    exists u2, unhex4 l1 l2 l3 l4 = Some u2 /\ is_low_surrogate u2 = false.

(** [scanstring(s, end, strict=True)], started after the opening
    quote: the decoded string and the text after the closing quote.
    [None] is [JSONDecodeError] (unterminated string, control
    character, invalid escape). *)
Fixpoint scanstring (s : pystr) : option (pystr * pystr) :=
  match s with
  | [] => None
  | c :: r =>
    if c =? 34 then Some ([], r)
    else if c =? 92 then
      match r with
      | [] => None
      | e :: r1 =>
        if e =? 117 then
          match r1 with
          | h1 :: h2 :: h3 :: h4 :: r2 =>
            match unhex4 h1 h2 h3 h4 with
            | None => None
            | Some uni =>
              if is_high_surrogate uni then
                match r2 with
                | b :: u :: l1 :: l2 :: l3 :: l4 :: r3 =>
                  if (b =? 92) && (u =? 117) then
                    match unhex4 l1 l2 l3 l4 with
                    | None => None
                    | Some uni2 =>
                      if is_low_surrogate uni2
                      then push (join_surrogates uni uni2) (scanstring r3)
                      else push uni (scanstring r2)
                    end
                  else push uni (scanstring r2)
                | _ => push uni (scanstring r2)
                end
              else push uni (scanstring r2)
            end
          | _ => None
          end
        else
          match backslash e with
          | Some ch => push ch (scanstring r1)
          | None => None
          end
      end
    else if c <? 32 then None
    else push c (scanstring r)
  end.

Definition is_digit (c : codepoint) : bool := (48 <=? c) && (c <=? 57).

(** The longest run of digits at the front of [s], and what follows. *)
Fixpoint digits (s : pystr) : pystr * pystr :=
  match s with
  | c :: r =>
    if is_digit c then let (ds, rest) := digits r in (c :: ds, rest)
    else ([], s)
  | [] => ([], [])
  end.

Definition int_of_digits (ds : pystr) : Z :=
  fold_left (fun acc d => (acc * 10 + Z.of_N (d - 48))%Z) ds 0%Z.

(** The integer part of [NUMBER_RE]: an optional minus, then a single
    zero or a run of digits that does not start with zero. Sign flag,
    digits and rest. *)
Definition match_integer (s : pystr) : option (bool * pystr * pystr) :=
  let (neg, r) :=
    match s with
    | c :: r' => if c =? 45 then (true, r') else (false, s)
    | [] => (false, s)
    end in
  match r with
  | c :: r' =>
    if c =? 48 then Some (neg, [48], r')
    else if is_digit c then let (ds, rest) := digits r in Some (neg, ds, rest)
    else None
  | [] => None
  end.

(** The optional fraction of [NUMBER_RE]: a dot and at least one
    digit. *)
Definition match_frac (s : pystr) : pystr * pystr :=
  match s with
  | c :: r =>
    if c =? 46 then
      match digits r with
      | ([], _) => ([], s)
      | (ds, rest) => (c :: ds, rest)
      end
    else ([], s)
  | [] => ([], s)
  end.

(** The optional exponent of [NUMBER_RE]: e or E, an optional sign and
    at least one digit. *)
Definition match_exp (s : pystr) : pystr * pystr :=
  match s with
  | c :: r =>
    if (c =? 101) || (c =? 69) then
      let (sign, r1) :=
        match r with
        | g :: r' => if (g =? 45) || (g =? 43) then ([g], r') else ([], r)
        | [] => ([], r)
        end in
      match digits r1 with
      | ([], _) => ([], s)
      | (ds, rest) => (c :: sign ++ ds, rest)
      end
    else ([], s)
  | [] => ([], s)
  end.

(** [NUMBER_RE.match] and the conversion of the match: an [int] when
    there is no fraction and no exponent, a [float] otherwise. *)
Definition match_number (s : pystr) : option (pyval * pystr) :=
  match match_integer s with
  | None => None
  | Some (neg, ds, r) =>
    let (frac, r1) := match_frac r in
    let (exp, r2) := match_exp r1 in
    match frac, exp with
    | [], [] =>
      Some (VInt (if neg then - int_of_digits ds else int_of_digits ds)%Z, r2)
    | _, _ =>
      Some (VFloat ((if neg then [45] else []) ++ ds ++ frac ++ exp), r2)
    end
  end.

(** A word of the grammar ([null], [true], ...) at the front of [s]. *)
Definition keyword (w : string) (v : pyval) (s : pystr) : scan pyval :=
  if startswith (lit w) s
  then Scanned v (skipn (String.length w) s)
  else Invalid.

(** [d[k] = v] on an insertion-ordered dict: a key already present
    keeps its position and takes the new value. *)
Fixpoint dict_set (d : list (pystr * pyval)) (k : pystr) (v : pyval) :
  list (pystr * pyval) :=
  match d with
  | [] => [(k, v)]
  | (k', v') :: d' =>
    if str_eqb k' k then (k', v) :: d' else (k', v') :: dict_set d' k v
  end.

(** [dict(pairs)] *)
Definition dict_of_pairs (pairs : list (pystr * pyval)) :
  list (pystr * pyval) :=
  fold_left (fun d kv => dict_set d (fst kv) (snd kv)) pairs [].

(** [scan_once], with the loops of [JSONObject] and [JSONArray]. Each
    call spends one unit of [fuel]. [object_loop] starts after the
    opening quote of a key and [array_loop] at an element; both carry
    what was read so far, last first. *)
Fixpoint scan_once (fuel : nat) (s : pystr) {struct fuel} : scan pyval :=
  match fuel with
  | O => Starved
  | S f =>
    match s with
    | [] => Invalid
    | c :: r =>
      if c =? 34 then
        match scanstring r with
        | Some (str, rest) => Scanned (VStr str) rest
        | None => Invalid
        end
      else if c =? 123 then
        match skip_ws r with
        | d :: r' =>
          if d =? 125 then Scanned (VDict []) r'
          else if d =? 34 then object_loop f r' []
          else Invalid
        | [] => Invalid
        end
      else if c =? 91 then
        match skip_ws r with
        | d :: r' =>
          if d =? 93 then Scanned (VList []) r'
          else array_loop f (d :: r') []
        | [] => Invalid
        end
      else if c =? 110 then keyword "null" VNone s
      else if c =? 116 then keyword "true" (VBool true) s
      else if c =? 102 then keyword "false" (VBool false) s
      else if c =? 78 then keyword "NaN" (VFloat (lit "NaN")) s
      else if c =? 73 then keyword "Infinity" (VFloat (lit "Infinity")) s
      else if startswith (lit "-Infinity") s
      then keyword "-Infinity" (VFloat (lit "-Infinity")) s
      else
        match match_number s with
        | Some (v, rest) => Scanned v rest
        | None => Invalid
        end
    end
  end

with object_loop (fuel : nat) (s : pystr) (acc : list (pystr * pyval))
  {struct fuel} : scan pyval :=
  match fuel with
  | O => Starved
  | S f =>
    match scanstring s with
    | None => Invalid
    | Some (key, r) =>
      match skip_ws r with
      | c :: r1 =>
        if c =? 58 then
          match scan_once f (skip_ws r1) with
          | Scanned v r2 =>
            match skip_ws r2 with
            | d :: r3 =>
              if d =? 125
              then Scanned (VDict (dict_of_pairs (rev ((key, v) :: acc)))) r3
              else if d =? 44 then
                match skip_ws r3 with
                | q :: r4 =>
                  if q =? 34 then object_loop f r4 ((key, v) :: acc)
                  else Invalid
                | [] => Invalid
                end
              else Invalid
            | [] => Invalid
            end
          | Invalid => Invalid
          | Starved => Starved
          end
        else Invalid
      | [] => Invalid
      end
    end
  end

with array_loop (fuel : nat) (s : pystr) (acc : list pyval)
  {struct fuel} : scan pyval :=
  match fuel with
  | O => Starved
  | S f =>
    match scan_once f s with
    | Scanned v r =>
      match skip_ws r with
      | d :: r1 =>
        if d =? 93 then Scanned (VList (rev (v :: acc))) r1
        else if d =? 44 then array_loop f (skip_ws r1) (v :: acc)
        else Invalid
      | [] => Invalid
      end
    | Invalid => Invalid
    | Starved => Starved
    end
  end.

(** The recursion budget [loads] gives [scan_once]: enough for every
    text (lemma [scan_once_fed]). *)
Definition budget (s : pystr) : nat := (2 * List.length s + 1)%nat.

(** [json.loads(s)] for a [str]: [None] is [JSONDecodeError]. A leading
    byte-order mark is refused, white space around the value is
    skipped and nothing else may follow it. *)
Definition loads (s : pystr) : option pyval :=
  if startswith [0xFEFF] s then None
  else
    match scan_once (budget s) (skip_ws s) with
    | Scanned v r =>
      match skip_ws r with
      | [] => Some v
      | _ :: _ => None
      end
    | _ => None
    end.

End Json.

(* ================================================================== *)
(** ** Journal: journal.py *)
(* ================================================================== *)

Module Journal.
Import Codec Json.

(** *** Constants *)

Definition VALID_MOODS : list pystr := [lit "happy"; lit "neutral"; lit "sad"].

Definition MOOD_EMOJI : list (pystr * pystr) :=
  [(lit "happy", lit ":)"); (lit "neutral", lit ":|"); (lit "sad", lit ":(")].

(** *** Entries *)

(** One journal entry: the dict with the keys ["date"], ["mood"] and
    ["text"] that [add_entry] builds. Its mood is any string: a loaded
    file is taken as it is. *)
Record entry : Type := Entry {
  e_date : pystr;
  e_mood : pystr;
  e_text : pystr
}.

(** The dict of an entry, keys in the order [add_entry] writes them. *)
Definition to_val (e : entry) : pyval :=
  VDict [(lit "date", VStr (e_date e)); (lit "mood", VStr (e_mood e));
         (lit "text", VStr (e_text e))].

(** The list of dicts [save_entries] is given. *)
Definition to_vals (es : list entry) : pyval := VList (map to_val es).

(** *** The world the script runs in *)

(** What happens when journal.json is opened for writing. *)
Inductive write_mode : Type :=
| CanWrite                 (* the write goes through *)
| WriteDenied              (* [open] raises [OSError]; the file is untouched *)
| DiskFull (room : nat).   (* [room] bytes are written, then [OSError] *)

Record disk : Type := Disk {
  file : option bytes;     (* content of journal.json; [None]: no such file *)
  readable : bool;         (* opening and reading it succeeds *)
  writing : write_mode
}.

(** What the script prints, one constructor per [print] (or prompt of
    [input]) of the source, carrying the values the text is built
    from. *)
Inductive out : Type :=
| WarnCorrupted       (* "Warning: Journal file is corrupted. Starting fresh." *)
| ErrorReading        (* "Error reading journal: ..." *)
| ErrorSaving         (* "Error saving journal: ..." *)
| NewEntryHeader      (* "--- New Entry ---" *)
| PromptMood          (* "Mood (happy/neutral/sad): " *)
| PleaseEnter         (* "  Please enter one of: happy, neutral, sad" *)
| PromptText          (* "Write your entry:" *)
| NothingSaved        (* "Entry is empty - nothing saved." *)
| Saved (date mood emoji : pystr)
| NoEntriesYet        (* "No entries yet. Start writing!" *)
| NoEntries           (* "No entries yet." *)
| AllHeader (n : nat)
| PromptFilter        (* "Filter by mood (happy/neutral/sad): " *)
| NoneFound (mood : pystr)
| FilterHeader (mood emoji : pystr) (n : nat)
| Shown (index : nat) (e : entry) (emoji : pystr)   (* [display_entry] *)
| PromptKeyword       (* "Search keyword: " *)
| NoKeyword           (* "No keyword entered." *)
| NoMatches (keyword : pystr)
| SearchHeader (keyword : pystr) (n : nat)
| SummaryHeader (total : nat)
| SummaryRow (mood emoji bar : pystr) (count : nat) (percent : Q)
| TopMood (mood emoji : pystr).

(** A reference to a list object. *)
Definition loc := nat.

Record world : Type := World {
  heap : loc -> list entry;   (* the list objects, by reference *)
  fs : disk;                  (* journal.json *)
  stdin : list pystr;         (* the lines [input()] is still to read *)
  stdout : list out;          (* what was printed, oldest first *)
  now : pystr;                (* [datetime.now().strftime("%Y-%m-%d %H:%M")] *)
  saves : nat                 (* how often journal.json was opened for writing *)
}.

Definition set_heap (h : loc -> list entry) (w : world) : world :=
  World h (fs w) (stdin w) (stdout w) (now w) (saves w).
Definition set_file (f : option bytes) (w : world) : world :=
  World (heap w) (Disk f (readable (fs w)) (writing (fs w)))
        (stdin w) (stdout w) (now w) (saves w).
Definition set_stdin (i : list pystr) (w : world) : world :=
  World (heap w) (fs w) i (stdout w) (now w) (saves w).
Definition emit (o : list out) (w : world) : world :=
  World (heap w) (fs w) (stdin w) (stdout w ++ o) (now w) (saves w).
Definition count_save (w : world) : world :=
  World (heap w) (fs w) (stdin w) (stdout w) (now w) (S (saves w)).

(** *** Exceptions and the monad of the script *)

Inductive exn : Type :=
| OSError
| JSONDecodeError
| UnicodeDecodeError
| UnicodeEncodeError
| EOFError
| KeyError
| ValueError
| ZeroDivisionError.

Inductive result (A : Type) : Type :=
| Ok (a : A)
| Raise (e : exn).
Arguments Ok {A} a.
Arguments Raise {A} e.

Definition M (A : Type) : Type := world -> result A * world.

Definition ret {A} (a : A) : M A := fun w => (Ok a, w).

Definition bind {A B} (m : M A) (k : A -> M B) : M B :=
  fun w =>
    match m w with
    | (Ok a, w') => k a w'
    | (Raise e, w') => (Raise e, w')
    end.

Definition raise {A} (e : exn) : M A := fun w => (Raise e, w).

(** [try: m  except ...: handler]; the handler re-raises what it does
    not catch. What [m] did before it raised stays done. *)
Definition try_except {A} (m : M A) (handler : exn -> M A) : M A :=
  fun w =>
    match m w with
    | (Ok a, w') => (Ok a, w')
    | (Raise e, w') => handler e w'
    end.

Notation "x <- m ;; k" := (bind m (fun x => k))
  (at level 61, m at next level, right associativity).
Notation "m ;; k" := (bind m (fun _ => k))
  (at level 61, right associativity).

(** [print(...)] *)
Definition print (o : out) : M unit := fun w => (Ok tt, emit [o] w).

(** [input(prompt)]: the prompt is written, a line is read; at the end
    of the input [EOFError] is raised. *)
Definition input (prompt : out) : M pystr :=
  fun w =>
    match stdin w with
    | [] => (Raise EOFError, emit [prompt] w)
    | line :: rest => (Ok line, set_stdin rest (emit [prompt] w))
    end.

(** The content of a list object. *)
Definition deref (r : loc) : M (list entry) := fun w => (Ok (heap w r), w).

(** [lst.append(e)]: the object is changed in place. *)
Definition list_append (r : loc) (e : entry) : M unit :=
  fun w =>
    (Ok tt, set_heap (fun l => if Nat.eqb l r then heap w r ++ [e] else heap w l) w).

(** [MOOD_EMOJI[mood]] *)
Fixpoint emoji_lookup (d : list (pystr * pystr)) (mood : pystr) : option pystr :=
  match d with
  | [] => None
  | (k, v) :: d' => if str_eqb k mood then Some v else emoji_lookup d' mood
  end.

Definition emoji_of (mood : pystr) : M pystr :=
  match emoji_lookup MOOD_EMOJI mood with
  | Some e => ret e
  | None => raise KeyError
  end.

(** [MOOD_EMOJI.get(mood, "?")] *)
Definition emoji_get (mood : pystr) : pystr :=
  match emoji_lookup MOOD_EMOJI mood with
  | Some e => e
  | None => lit "?"
  end.

(** *** Files *)

(** [os.path.exists(JOURNAL_FILE)] *)
Definition path_exists : M bool :=
  fun w => (Ok (match file (fs w) with Some _ => true | None => false end), w).

(** [open(JOURNAL_FILE, "r")] followed by [f.read()], which is the
    first thing [json.load(f)] does: the decoded text of the file. *)
Definition read_file : M pystr :=
  fun w =>
    match file (fs w) with
    | None => (Raise OSError, w)
    | Some bs =>
      if readable (fs w) then
        match read_text bs with
        | Some t => (Ok t, w)
        | None => (Raise UnicodeDecodeError, w)
        end
      else (Raise OSError, w)
    end.

(** [json.loads] of the text read. *)
Definition json_loads (t : pystr) : M pyval :=
  match loads t with
  | Some v => ret v
  | None => raise JSONDecodeError
  end.

(** [open(JOURNAL_FILE, "w")] and the writes of [json.dump] up to the
    closing of the file: opening truncates the file, the text is
    encoded on its way out. *)
Definition write_file (t : pystr) : M unit :=
  fun w =>
    let w := count_save w in
    match writing (fs w) with
    | WriteDenied => (Raise OSError, w)
    | CanWrite =>
      match utf8_encode t with
      | Some bs => (Ok tt, set_file (Some bs) w)
      | None => (Raise UnicodeEncodeError, set_file (Some []) w)
      end
    | DiskFull room =>
      match utf8_encode t with
      | Some bs => (Raise OSError, set_file (Some (firstn room bs)) w)
      | None => (Raise UnicodeEncodeError, set_file (Some []) w)
      end
    end.

(** [load_entries()] *)
Definition load_entries : M pyval :=
  try_except
    (there <- path_exists ;;
     if negb there then ret (VList [])
     else t <- read_file ;; json_loads t)
    (fun e =>
       match e with
       | JSONDecodeError => print WarnCorrupted ;; ret (VList [])
       | OSError => print ErrorReading ;; ret (VList [])
       | _ => raise e
       end).

Section Script.

(** [str.lower]: the Unicode case tables are not part of the script. *)
Variable lower : pystr -> pystr.

(** [float.__repr__], for [json.dump]. *)
Variable float_repr : pystr -> pystr.

(** [save_entries(entries)] *)
Definition save_entries (entries : pyval) : M bool :=
  try_except
    (write_file (dumps float_repr entries) ;; ret true)
    (fun e =>
       match e with
       | OSError => print ErrorSaving ;; ret false
       | _ => raise e
       end).

(** The loop

      while True:
          mood = input(prompt).strip().lower()
          if mood in VALID_MOODS: break
          print("  Please enter one of: ...")

    over the lines still to be read: the mood (or [EOFError]), the
    lines left and what was printed. *)
Fixpoint read_mood (prompt : out) (lines : list pystr) :
  result pystr * list pystr * list out :=
  match lines with
  | [] => (Raise EOFError, [], [prompt])
  | line :: rest =>
    let mood := lower (strip line) in
    if str_mem mood VALID_MOODS then (Ok mood, rest, [prompt])
    else
      let '(r, rest', printed) := read_mood prompt rest in
      (r, rest', prompt :: PleaseEnter :: printed)
  end.

Definition ask_mood (prompt : out) : M pystr :=
  fun w =>
    let '(r, rest, printed) := read_mood prompt (stdin w) in
    (r, set_stdin rest (emit printed w)).

Definition is_empty {A} (l : list A) : bool :=
  match l with [] => true | _ :: _ => false end.

(** [add_entry(entries)] *)
Definition add_entry (entries : loc) : M loc :=
  print NewEntryHeader ;;
  date <- (fun w => (Ok (now w), w)) ;;
  mood <- ask_mood PromptMood ;;
  line <- input PromptText ;;
  let text := strip line in
  if is_empty text then
    print NothingSaved ;;
    ret entries
  else
    let entry := Entry date mood text in
    list_append entries entry ;;
    es <- deref entries ;;
    saved <- save_entries (to_vals es) ;;
    (if saved : bool
     then emoji <- emoji_of mood ;; print (Saved date mood emoji)
     else ret tt) ;;
    ret entries.

(** [display_entry(entry, index)] *)
Definition display_entry (e : entry) (index : nat) : M unit :=
  let emoji := emoji_get (e_mood e) in
  print (Shown index e emoji).

(** [for i, entry in enumerate(es, start=i): display_entry(entry, i)] *)
Fixpoint display_from (i : nat) (es : list entry) : M unit :=
  match es with
  | [] => ret tt
  | e :: es' => display_entry e i ;; display_from (S i) es'
  end.

(** [view_all_entries(entries)] *)
Definition view_all_entries (entries : loc) : M unit :=
  es <- deref entries ;;
  if is_empty es then print NoEntriesYet
  else
    print (AllHeader (List.length es)) ;;
    display_from 1 es.

(** [[e for e in entries if e["mood"] == mood]] *)
Definition filtered (es : list entry) (mood : pystr) : list entry :=
  filter (fun e => str_eqb (e_mood e) mood) es.

(** [view_by_mood(entries)] *)
Definition view_by_mood (entries : loc) : M unit :=
  es <- deref entries ;;
  if is_empty es then print NoEntries
  else
    mood <- ask_mood PromptFilter ;;
    let found := filtered es mood in
    if is_empty found then print (NoneFound mood)
    else
      emoji <- emoji_of mood ;;
      print (FilterHeader mood emoji (List.length found)) ;;
      display_from 1 found.

(** [[e for e in entries if keyword_lower in e["text"].lower()]] *)
Definition matches (es : list entry) (keyword_lower : pystr) : list entry :=
  filter (fun e => str_in keyword_lower (lower (e_text e))) es.

(** [search_entries(entries)] *)
Definition search_entries (entries : loc) : M unit :=
  es <- deref entries ;;
  if is_empty es then print NoEntries
  else
    line <- input PromptKeyword ;;
    let keyword := strip line in
    if is_empty keyword then print NoKeyword
    else
      let keyword_lower := lower keyword in
      let found := matches es keyword_lower in
      if is_empty found then print (NoMatches keyword)
      else
        print (SearchHeader keyword (List.length found)) ;;
        display_from 1 found.

End Script.

(** *** The mood summary *)

(** [mood in counts] *)
Fixpoint has_key (counts : list (pystr * nat)) (mood : pystr) : bool :=
  match counts with
  | [] => false
  | (k, _) :: d => str_eqb k mood || has_key d mood
  end.

(** [counts[mood] += 1] for a key that is present. *)
Fixpoint increment (counts : list (pystr * nat)) (mood : pystr) :
  list (pystr * nat) :=
  match counts with
  | [] => []
  | (k, n) :: d =>
    if str_eqb k mood then (k, S n) :: d else (k, n) :: increment d mood
  end.

(** [counts[m]] for a key that is present. *)
Fixpoint count_of (counts : list (pystr * nat)) (mood : pystr) : nat :=
  match counts with
  | [] => 0
  | (k, n) :: d => if str_eqb k mood then n else count_of d mood
  end.

(** The dict [counts] after the tally loop:

      counts = {mood: 0 for mood in VALID_MOODS}
      for entry in entries:
          mood = entry["mood"]
          if mood in counts:
              counts[mood] += 1 *)
Definition counts (es : list entry) : list (pystr * nat) :=
  fold_left
    (fun counts entry =>
       let mood := e_mood entry in
       if has_key counts mood then increment counts mood else counts)
    es
    (map (fun mood => (mood, 0%nat)) VALID_MOODS).

(** [a / b] on ints: true division. *)
Definition truediv (a b : nat) : M Q :=
  match b with
  | O => raise ZeroDivisionError
  | S _ => ret (inject_Z (Z.of_nat a) / inject_Z (Z.of_nat b))%Q
  end.

(** [(count / total * 100) if total > 0 else 0] *)
Definition percent (count total : nat) : M Q :=
  if Nat.ltb 0 total then q <- truediv count total ;; ret (q * 100)%Q
  else ret 0%Q.

(** [max(iterable, key=key)]: the first of the largest items;
    [ValueError] on an empty iterable. *)
Definition py_max {A} (key : A -> nat) (items : list A) : M A :=
  match items with
  | [] => raise ValueError
  | x :: xs =>
    ret (fold_left (fun best y => if Nat.ltb (key best) (key y) then y else best)
                   xs x)
  end.

(** The rows of the summary: [for mood, count in counts.items(): ...] *)
Fixpoint summary_rows (items : list (pystr * nat)) (total : nat) : M unit :=
  match items with
  | [] => ret tt
  | (mood, count) :: rest =>
    emoji <- emoji_of mood ;;
    p <- percent count total ;;
    let bar := repeat 35 count in
    print (SummaryRow mood emoji bar count p) ;;
    summary_rows rest total
  end.

(** [mood_summary(entries)] *)
Definition mood_summary (entries : loc) : M unit :=
  es <- deref entries ;;
  if is_empty es then print NoEntries
  else
    let counts := counts es in
    let total := List.length es in
    print (SummaryHeader total) ;;
    summary_rows counts total ;;
    top_mood <- py_max (fun m => count_of counts m) (map fst counts) ;;
    emoji <- emoji_of top_mood ;;
    print (TopMood top_mood emoji).

(** *** Reading the output *)

(** The entries displayed, in the order they were displayed. *)
Fixpoint shown (o : list out) : list entry :=
  match o with
  | [] => []
  | Shown _ e _ :: o' => e :: shown o'
  | _ :: o' => shown o'
  end.

(** The rows of the summary: mood, count and percentage. *)
Fixpoint rows (o : list out) : list (pystr * nat * Q) :=
  match o with
  | [] => []
  | SummaryRow m _ _ c p :: o' => (m, c, p) :: rows o'
  | _ :: o' => rows o'
  end.

(** The moods reported as most frequent. *)
Fixpoint tops (o : list out) : list pystr :=
  match o with
  | [] => []
  | TopMood m _ :: o' => m :: tops o'
  | _ :: o' => tops o'
  end.

(** The totals announced by the summary header. *)
Fixpoint totals (o : list out) : list nat :=
  match o with
  | [] => []
  | SummaryHeader n :: o' => n :: totals o'
  | _ :: o' => totals o'
  end.

(** What a run of [m] from [w] prints. *)
Definition printed {A} (m : M A) (w : world) : list out :=
  skipn (List.length (stdout w)) (stdout (snd (m w))).

(** The user answers a mood prompt: some lines that are refused, then
    [line], which gives the mood [m]; [rest] is left to read. *)
Definition answers (lower : pystr -> pystr) (lines : list pystr)
  (line : pystr) (m : pystr) (rest : list pystr) : Prop :=
  exists refused,
    lines = refused ++ line :: rest
    /\ Forall (fun l => ~ In (lower (strip l)) VALID_MOODS) refused
    /\ lower (strip line) = m
    /\ In m VALID_MOODS.

(** [x] comes before [y] in [l]. *)
Definition before {A} (x y : A) (l : list A) : Prop :=
  exists a b c, l = a ++ x :: b ++ y :: c.

(** [m] changes nothing but the standard streams. *)
Definition quiet {A} (m : M A) : Prop :=
  forall w, heap (snd (m w)) = heap w
            /\ fs (snd (m w)) = fs w
            /\ saves (snd (m w)) = saves w
            /\ now (snd (m w)) = now w.

(** What [display_from i es] prints. *)
Fixpoint displayed (i : nat) (es : list entry) : list out :=
  match es with
  | [] => []
  | e :: es' => Shown i e (emoji_get (e_mood e)) :: displayed (S i) es'
  end.

(** What a mood prompt prints when [n] answers are refused before one
    is taken. *)
Fixpoint refusals (prompt : out) (n : nat) : list out :=
  match n with
  | O => [prompt]
  | S k => prompt :: PleaseEnter :: refusals prompt k
  end.

(** The sum of the counts of the rows of a summary. *)
Definition sum_counts (rs : list (pystr * nat * Q)) : nat :=
  list_sum (map (fun row => snd (fst row)) rs).

(** [count / total * 100] as an exact fraction. *)
Definition share (count total : nat) : Q :=
  (inject_Z (Z.of_nat count) / inject_Z (Z.of_nat total) * 100)%Q.

(** The row [summary_rows] prints for one item of [counts]. *)
Definition row_of (total : nat) (item : pystr * nat) : out :=
  SummaryRow (fst item) (emoji_get (fst item)) (repeat 35 (snd item)) (snd item)
             (if Nat.ltb 0 total then share (snd item) total else 0%Q).

(** [mood in VALID_MOODS] for the mood of an entry. *)
Definition mood_known (e : entry) : bool := str_mem (e_mood e) VALID_MOODS.

(** *** Valid collections *)

(** The strings of an entry are well formed. *)
Definition wf_entry (e : entry) : Prop :=
  wf_str (e_date e) /\ wf_str (e_mood e) /\ wf_str (e_text e).

(** An Entry as the data model has it: a mood of the fixed set, a text
    that is not empty, and strings that are well formed. *)
Definition valid_entry (e : entry) : Prop :=
  wf_str (e_date e) /\ In (e_mood e) VALID_MOODS
  /\ e_text e <> [] /\ wf_str (e_text e).

(** *** Sample data *)

(** A world whose list objects all hold [es], with no journal file
    yet, [lines] waiting on the standard input and nothing printed. *)
Definition sample_world (es : list entry) (lines : list pystr) : world :=
  World (fun _ => es) (Disk None true CanWrite) lines []
        (lit "2024-05-01 09:30") 0.

Definition day1 : entry :=
  Entry (lit "2024-04-27 08:15") (lit "happy") (lit "Had a Great Day").
Definition day2 : entry :=
  Entry (lit "2024-04-28 21:40") (lit "sad") (lit "Rough day").
Definition day3 : entry :=
  Entry (lit "2024-04-29 07:05") (lit "happy") (lit "First day at the lake").
Definition day4 : entry :=
  Entry (lit "2024-04-30 12:00") (lit "neutral") (lit "Nothing much").
Definition day5 : entry :=
  Entry (lit "2024-05-01 09:00") (lit "happy")
        (lit "Coffee: " ++ [34; 99; 97; 102; 233; 34; 32; 0x1F600; 10; 92]).

(** An entry as a hand-edited file can hold it. *)
Definition angry_day : entry :=
  Entry (lit "2024-05-01 09:30") (lit "angry") (lit "stuck in traffic").

Definition five_days : list entry := [day1; day2; day3; day4; day5].

(** A world like [sample_world], with the disk [d]. *)
Definition world_on (d : disk) (es : list entry) (lines : list pystr) : world :=
  World (fun _ => es) d lines [] (lit "2024-05-01 09:30") 0.

(** *** More ways to read the output *)

(** The numbers under which entries were displayed. *)
Fixpoint indices (o : list out) : list nat :=
  match o with
  | [] => []
  | Shown i _ _ :: o' => i :: indices o'
  | _ :: o' => indices o'
  end.

(** The counts announced by the headers of the three listings. *)
Fixpoint announced (o : list out) : list nat :=
  match o with
  | [] => []
  | AllHeader n :: o' => n :: announced o'
  | FilterHeader _ _ n :: o' => n :: announced o'
  | SearchHeader _ n :: o' => n :: announced o'
  | _ :: o' => announced o'
  end.

(** The bars of the summary, each with the count of its row. *)
Fixpoint bars (o : list out) : list (pystr * nat) :=
  match o with
  | [] => []
  | SummaryRow _ _ bar c _ :: o' => (bar, c) :: bars o'
  | _ :: o' => bars o'
  end.


(** What [add_entry] promises of an entry it stores: a mood of the
    fixed set and a text that is not empty. *)
Definition entry_ok (e : entry) : Prop :=
  In (e_mood e) VALID_MOODS /\ e_text e <> [].

(** The heap after [lst.append(e)] on the list at [r]. *)
Definition appended (h : loc -> list entry) (r : loc) (e : entry) :
  loc -> list entry :=
  fun l => if Nat.eqb l r then h r ++ [e] else h l.

(** A byte of plain text: line feed or printable ASCII. *)
Definition plain_byte (b : byte) : Prop := plain (Byte.to_N b).

(** The shape of what a listing prints: the entries shown are numbered
    from 1, and a header is printed exactly when some entry is shown
    and then announces how many. *)
Definition well_listed (o : list out) : Prop :=
  indices o = seq 1 (List.length (shown o))
  /\ announced o = if is_empty (shown o) then [] else [List.length (shown o)].

(** [m] does not put back what it read: it leaves no more input than
    it found. *)
Definition frugal {A} (m : M A) : Prop :=
  forall w, (List.length (stdin (snd (m w))) <= List.length (stdin w))%nat.

End Journal.

(* ================================================================== *)
(** ** Menu: the loop of [main] *)
(* ================================================================== *)

Module Menu.
Import Journal.

(** What is on the screen: what [main] prints itself, and what the
    functions it calls print. *)
Inductive line : Type :=
| MenuShown          (* [print_menu()]: the nine lines of the menu *)
| PromptChoice       (* "Choose an option (1-6): " *)
| GoodbyeEOF         (* "Goodbye!", after the end of the input *)
| GoodbyeQuit        (* "Goodbye! Keep journaling." *)
| InvalidChoice      (* "Invalid choice - enter a number from 1 to 6." *)
| Printed (o : out). (* a line of one of the functions called *)

Record console : Type := Console {
  inner : world;
  screen : list line
}.

Definition say (ls : list line) (c : console) : console :=
  Console (inner c) (screen c ++ ls).

(** A call of a function of the script from the menu: what it prints
    goes to the screen. *)
Definition call {A} (m : M A) (c : console) : result A * console :=
  (fst (m (inner c)),
   Console (snd (m (inner c)))
           (screen c ++ map Printed (printed m (inner c)))).

(** The lines printed by the functions called, in order. *)
Fixpoint printed_lines (ls : list line) : list out :=
  match ls with
  | [] => []
  | Printed o :: ls' => o :: printed_lines ls'
  | _ :: ls' => printed_lines ls'
  end.

Section Loop.

Variable lower : pystr -> pystr.
Variable float_repr : pystr -> pystr.

(** The loop of [main]

      while True:
          print_menu()
          try:
              choice = input("Choose an option (1-6): ").strip()
          except (KeyboardInterrupt, EOFError):
              print("\nGoodbye!")
              break
          if choice == "1": entries = add_entry(entries)
          elif choice == "2": view_all_entries(entries)
          ...
          elif choice == "6": print("Goodbye! Keep journaling."); break
          else: print("Invalid choice ...")

    entered with the list [entries]. Every turn reads a line, so
    [fuel] turns are enough when fewer than [fuel] lines are left
    ([None]: the turns ran out). An exception raised by a function
    called leaves the loop. *)
Fixpoint main_loop (fuel : nat) (entries : loc) (c : console) :
  option (result unit * console) :=
  match fuel with
  | O => None
  | S f =>
    let c := say [MenuShown; PromptChoice] c in
    match stdin (inner c) with
    | [] => Some (Ok tt, say [GoodbyeEOF] c)
    | answer :: rest =>
      let c := Console (set_stdin rest (inner c)) (screen c) in
      let choice := strip answer in
      let continue (r : result unit * console) :=
        match r with
        | (Ok _, c') => main_loop f entries c'
        | (Raise e, c') => Some (Raise e, c')
        end in
      if str_eqb choice (lit "1") then
        match call (add_entry lower float_repr entries) c with
        | (Ok entries', c') => main_loop f entries' c'
        | (Raise e, c') => Some (Raise e, c')
        end
      else if str_eqb choice (lit "2") then continue (call (view_all_entries entries) c)
      else if str_eqb choice (lit "3") then continue (call (view_by_mood lower entries) c)
      else if str_eqb choice (lit "4") then continue (call (mood_summary entries) c)
      else if str_eqb choice (lit "5") then continue (call (search_entries lower entries) c)
      else if str_eqb choice (lit "6") then Some (Ok tt, say [GoodbyeQuit] c)
      else main_loop f entries (say [InvalidChoice] c)
    end
  end.

(** The loop with the turns its input can need. *)
Definition session (entries : loc) (c : console) :
  option (result unit * console) :=
  main_loop (S (List.length (stdin (inner c)))) entries c.

End Loop.

(** A choice the menu does not know. *)
Definition unknown_choice (answer : pystr) : Prop :=
  ~ In (strip answer)
       [lit "1"; lit "2"; lit "3"; lit "4"; lit "5"; lit "6"].

(** How a session ended and what it left behind, the screen apart. *)
Definition outcome (x : option (result unit * console)) :
  option (result unit * world) :=
  match x with
  | Some (res, c) => Some (res, inner c)
  | None => None
  end.

End Menu.


(* ================================================================== *)
(** ** Facts about strings *)
(* ================================================================== *)

Module TextFacts.

Lemma str_eqb_eq (a b : pystr) : str_eqb a b = true <-> a = b.
Proof.
  revert b; induction a as [|x a IH]; intros [|y b]; simpl;
    try (split; [discriminate | discriminate]); try tauto.
  rewrite andb_true_iff, N.eqb_eq, IH.
  split; [intros [-> ->]; reflexivity | intros [= -> ->]; auto].
Qed.

Lemma str_eqb_refl (a : pystr) : str_eqb a a = true.
Proof. apply str_eqb_eq; reflexivity. Qed.

Lemma str_eqb_neq (a b : pystr) : str_eqb a b = false <-> a <> b.
Proof.
  rewrite <- str_eqb_eq. destruct (str_eqb a b); split; congruence.
Qed.

Lemma str_eqb_sym (a b : pystr) : str_eqb a b = str_eqb b a.
Proof.
  destruct (str_eqb a b) eqn:E.
  - apply str_eqb_eq in E; subst; symmetry; apply str_eqb_refl.
  - symmetry; apply str_eqb_neq; apply str_eqb_neq in E; congruence.
Qed.

Lemma str_mem_In (x : pystr) (xs : list pystr) :
  str_mem x xs = true <-> In x xs.
Proof.
  induction xs as [|y ys IH]; simpl.
  - split; [discriminate | tauto].
  - rewrite orb_true_iff, IH, str_eqb_eq. split; intros [H|H]; auto.
Qed.

Lemma str_mem_not_In (x : pystr) (xs : list pystr) :
  str_mem x xs = false <-> ~ In x xs.
Proof.
  rewrite <- str_mem_In. destruct (str_mem x xs); split; congruence.
Qed.

Lemma startswith_app (p s : pystr) :
  startswith p s = true <-> exists post, s = p ++ post.
Proof.
  revert s; induction p as [|x p IH]; intros s; simpl.
  - split; [exists s; reflexivity | reflexivity].
  - destruct s as [|y s].
    + split; [discriminate | intros [post H]; discriminate].
    + rewrite andb_true_iff, N.eqb_eq, IH. split.
      * intros [-> [post ->]]. exists post; reflexivity.
      * intros [post [= -> ->]]. split; [reflexivity | exists post; reflexivity].
Qed.


End TextFacts.

(* ================================================================== *)
(** ** Facts about the runs of the script *)
(* ================================================================== *)

Module Runs.
Import Codec Json Journal TextFacts.

Lemma emit_emit (a b : list out) (w : world) :
  emit b (emit a w) = emit (a ++ b) w.
Proof. unfold emit; simpl. rewrite <- app_assoc. reflexivity. Qed.

Lemma printed_emit {A} (m : M A) (w : world) (a : result A) (o : list out) (w' : world) :
  m w = (a, w') -> stdout w' = stdout w ++ o -> printed m w = o.
Proof.
  intros Hm Ho. unfold printed. rewrite Hm; simpl. rewrite Ho.
  rewrite skipn_app, skipn_all, Nat.sub_diag. reflexivity.
Qed.

(** *** Frames: what a run leaves alone *)

Lemma quiet_ret {A} (a : A) : quiet (ret a).
Proof. intros w; simpl; auto. Qed.

Lemma quiet_raise {A} (e : exn) : quiet (@raise A e).
Proof. intros w; simpl; auto. Qed.

Lemma quiet_bind {A B} (m : M A) (k : A -> M B) :
  quiet m -> (forall a, quiet (k a)) -> quiet (bind m k).
Proof.
  intros Hm Hk w. unfold bind. specialize (Hm w).
  destruct (m w) as [[a|e] w1]; simpl in *.
  - destruct (Hk a w1) as (H1 & H2 & H3 & H4).
    destruct Hm as (G1 & G2 & G3 & G4).
    rewrite H1, H2, H3, H4. auto.
  - exact Hm.
Qed.

Lemma quiet_print (o : out) : quiet (print o).
Proof. intros w; simpl; auto. Qed.

Lemma quiet_input (o : out) : quiet (input o).
Proof. intros w; unfold input. destruct (stdin w); simpl; auto. Qed.

Lemma quiet_deref (r : loc) : quiet (deref r).
Proof. intros w; simpl; auto. Qed.

Lemma quiet_emoji_of (m : pystr) : quiet (emoji_of m).
Proof.
  unfold emoji_of. destruct (emoji_lookup MOOD_EMOJI m);
    [apply quiet_ret | apply quiet_raise].
Qed.

Lemma quiet_ask_mood lower (o : out) : quiet (ask_mood lower o).
Proof.
  intros w; unfold ask_mood.
  destruct (read_mood lower o (stdin w)) as [[r rest] pr]; simpl; auto.
Qed.

Lemma quiet_display_from (es : list entry) (i : nat) : quiet (display_from i es).
Proof.
  revert i; induction es as [|e es IH]; intros i; simpl.
  - apply quiet_ret.
  - apply quiet_bind; [apply quiet_print | intros _; apply IH].
Qed.

Lemma quiet_percent (c t : nat) : quiet (percent c t).
Proof.
  unfold percent. destruct (Nat.ltb 0 t); [|apply quiet_ret].
  apply quiet_bind; [|intros; apply quiet_ret].
  unfold truediv. destruct t; [apply quiet_raise | apply quiet_ret].
Qed.

Lemma quiet_summary_rows (items : list (pystr * nat)) (t : nat) :
  quiet (summary_rows items t).
Proof.
  induction items as [|[m c] items IH]; simpl.
  - apply quiet_ret.
  - apply quiet_bind; [apply quiet_emoji_of | intros emoji].
    apply quiet_bind; [apply quiet_percent | intros p].
    apply quiet_bind; [apply quiet_print | intros _; exact IH].
Qed.

Lemma quiet_py_max {A} (key : A -> nat) (l : list A) : quiet (py_max key l).
Proof. destruct l; [apply quiet_raise | apply quiet_ret]. Qed.

Create HintDb quiet.
#[export] Hint Resolve quiet_ret quiet_raise quiet_print quiet_input quiet_deref
  quiet_emoji_of quiet_ask_mood quiet_display_from quiet_percent
  quiet_summary_rows quiet_py_max : quiet.

Ltac quiet_steps :=
  repeat first
    [ apply quiet_bind; [solve [auto with quiet] | intros ?]
    | match goal with |- quiet (if ?b then _ else _) => destruct b end
    | solve [auto with quiet] ].

Lemma quiet_view_by_mood lower (r : loc) : quiet (view_by_mood lower r).
Proof. unfold view_by_mood. quiet_steps. Qed.

Lemma quiet_search_entries lower (r : loc) : quiet (search_entries lower r).
Proof. unfold search_entries. quiet_steps. Qed.

Lemma quiet_mood_summary (r : loc) : quiet (mood_summary r).
Proof. unfold mood_summary. quiet_steps. Qed.

(** *** What the display loop prints *)

Lemma display_from_run (es : list entry) (i : nat) (w : world) :
  display_from i es w = (Ok tt, emit (displayed i es) w).
Proof.
  revert i w; induction es as [|e es IH]; intros i w; simpl.
  - unfold ret, emit. rewrite app_nil_r. destruct w; reflexivity.
  - unfold bind, display_entry, print. rewrite IH, emit_emit. reflexivity.
Qed.



(** *** The mood prompt *)

Lemma read_mood_cons lower prompt line rest :
  read_mood lower prompt (line :: rest) =
  if str_mem (lower (strip line)) VALID_MOODS then (Ok (lower (strip line)), rest, [prompt])
  else let '(r, rest', pr) := read_mood lower prompt rest in
       (r, rest', prompt :: PleaseEnter :: pr).
Proof. reflexivity. Qed.

Lemma read_mood_answers lower prompt lines line m rest :
  answers lower lines line m rest ->
  exists n, read_mood lower prompt lines = (Ok m, rest, refusals prompt n).
Proof.
  intros (refused & -> & Hrej & Hm & Hin).
  induction Hrej as [|l refused Hl _ IH]; rewrite ?app_nil_l, <- ?app_comm_cons;
    rewrite read_mood_cons.
  - rewrite Hm. apply str_mem_In in Hin. rewrite Hin. exists 0%nat. reflexivity.
  - apply str_mem_not_In in Hl. rewrite Hl.
    destruct IH as [n ->]. exists (S n). reflexivity.
Qed.



(** *** Loading *)

Lemma load_entries_missing (w : world) :
  file (fs w) = None -> load_entries w = (Ok (VList []), w).
Proof.
  intros H. unfold load_entries, try_except, bind, path_exists.
  rewrite H. reflexivity.
Qed.

Lemma load_entries_unreadable (w : world) (bs : bytes) :
  file (fs w) = Some bs -> readable (fs w) = false ->
  load_entries w = (Ok (VList []), emit [ErrorReading] w).
Proof.
  intros H R. unfold load_entries, try_except, bind, path_exists.
  rewrite H. cbn [negb]. unfold read_file. rewrite H, R. reflexivity.
Qed.

Lemma load_entries_readable (w : world) (bs : bytes) :
  file (fs w) = Some bs -> readable (fs w) = true ->
  load_entries w
  = match read_text bs with
    | None => (Raise UnicodeDecodeError, w)
    | Some t =>
      match loads t with
      | Some v => (Ok v, w)
      | None => (Ok (VList []), emit [WarnCorrupted] w)
      end
    end.
Proof.
  intros H R. unfold load_entries, try_except, bind, path_exists.
  rewrite H. cbn [negb]. unfold read_file. rewrite H, R.
  destruct (read_text bs) as [t|]; [|reflexivity].
  unfold json_loads. destruct (loads t); reflexivity.
Qed.

End Runs.

(* ================================================================== *)
(** ** The queries: filter by mood, keyword search *)
(* ================================================================== *)

Section Queries.
Import Codec Json Journal TextFacts Runs.

Variable lower : pystr -> pystr.

Lemma ask_mood_run prompt w line m rest :
  answers lower (stdin w) line m rest ->
  exists n, ask_mood lower prompt w
            = (Ok m, set_stdin rest (emit (refusals prompt n) w)).
Proof.
  intros H. destruct (read_mood_answers lower prompt _ _ _ _ H) as [n Hn].
  exists n. unfold ask_mood. rewrite Hn. reflexivity.
Qed.





(** C9. Filtering by mood, searching and the mood summary leave every
    list object as it was (and the journal file too), however the run
    ends. *)
Theorem queries_leave_collection (r : loc) (w : world) :
  let unchanged (w' : world) :=
    heap w' = heap w /\ heap w' r = heap w r /\ fs w' = fs w in
  unchanged (snd (view_by_mood lower r w))
  /\ unchanged (snd (search_entries lower r w))
  /\ unchanged (snd (mood_summary r w)).
Proof.
  intros unchanged. unfold unchanged.
  destruct (quiet_view_by_mood lower r w) as (H1 & H2 & _).
  destruct (quiet_search_entries lower r w) as (H3 & H4 & _).
  destruct (quiet_mood_summary r w) as (H5 & H6 & _).
  rewrite H1, H3, H5. auto 10.
Qed.

Variable float_repr : pystr -> pystr.

(** C3. When the text typed for a new entry is empty (nothing but
    white space), [add_entry] returns the list it was given, unchanged,
    and reports that nothing was saved; nothing is appended and the
    journal file is not opened for writing. This holds for every
    collection, every time of day and every mood answered. *)
Theorem add_entry_empty_text (r : loc) (w : world)
  (line m text_line : pystr) (rest : list pystr) :
  answers lower (stdin w) line m (text_line :: rest) ->
  strip text_line = [] ->
  let run := add_entry lower float_repr r w in
  fst run = Ok r
  /\ heap (snd run) = heap w
  /\ fs (snd run) = fs w
  /\ saves (snd run) = saves w
  /\ In NothingSaved (printed (add_entry lower float_repr r) w)
  /\ (forall d mo e, ~ In (Saved d mo e) (printed (add_entry lower float_repr r) w)).
Proof.
  intros Hans Hempty run.
  assert (Hrun : exists n,
    run = (Ok r, set_stdin rest
                   (emit (NewEntryHeader :: refusals PromptMood n
                          ++ [PromptText; NothingSaved]) w))).
  { subst run. unfold add_entry, bind, print.
    assert (Hans' : answers lower (stdin (emit [NewEntryHeader] w)) line m
                      (text_line :: rest)) by exact Hans.
    destruct (ask_mood_run PromptMood _ _ _ _ Hans') as [n Hn].
    rewrite Hn. exists n. unfold input. cbn [stdin set_stdin].
    rewrite Hempty. cbn [is_empty]. unfold ret.
    unfold set_stdin, emit; simpl. rewrite <- !app_assoc. reflexivity. }
  destruct Hrun as [n Hrun].
  assert (Hpr : printed (add_entry lower float_repr r) w
                = NewEntryHeader :: refusals PromptMood n
                  ++ [PromptText; NothingSaved]).
  { eapply printed_emit; [exact Hrun | reflexivity]. }
  rewrite Hrun. cbn [fst snd]. repeat split.
  - rewrite Hpr. right. apply in_or_app. right. right. left. reflexivity.
  - intros d mo e. rewrite Hpr. intros [Hc|Hc]; [discriminate|].
    apply in_app_or in Hc. destruct Hc as [Hc|[Hc|[Hc|[]]]]; try discriminate.
    clear -Hc. induction n as [|n IH]; simpl in Hc.
    + destruct Hc as [Hc|[]]; discriminate.
    + destruct Hc as [Hc|[Hc|Hc]]; try discriminate. auto.
Qed.

End Queries.

(* ================================================================== *)
(** ** The mood summary *)
(* ================================================================== *)

Module Tally.
Import Codec Json Journal TextFacts Runs.

(** The tally loop over a dict with three distinct keys. *)
Lemma tally_fold (k1 k2 k3 : pystr) :
  k1 <> k2 -> k1 <> k3 -> k2 <> k3 ->
  forall (es : list entry) (a b c : nat),
    fold_left
      (fun counts entry =>
         let mood := e_mood entry in
         if has_key counts mood then increment counts mood else counts)
      es [(k1, a); (k2, b); (k3, c)]
    = [(k1, (a + List.length (filtered es k1))%nat);
       (k2, (b + List.length (filtered es k2))%nat);
       (k3, (c + List.length (filtered es k3))%nat)].
Proof.
  intros H12 H13 H23. induction es as [|e es IH]; intros a b c.
  - simpl. rewrite !Nat.add_0_r. reflexivity.
  - cbn [fold_left filtered filter has_key increment].
    rewrite (str_eqb_sym k1), (str_eqb_sym k2), (str_eqb_sym k3).
    destruct (str_eqb (e_mood e) k1) eqn:E1;
      [apply str_eqb_eq in E1 | apply str_eqb_neq in E1];
      (destruct (str_eqb (e_mood e) k2) eqn:E2;
        [apply str_eqb_eq in E2 | apply str_eqb_neq in E2]);
      (destruct (str_eqb (e_mood e) k3) eqn:E3;
        [apply str_eqb_eq in E3 | apply str_eqb_neq in E3]);
      try congruence; cbn [orb]; rewrite IH; unfold filtered; cbn [List.length];
      repeat match goal with
             | |- _ :: _ = _ :: _ => f_equal
             | |- (_, _) = (_, _) => f_equal
             end; lia.
Qed.

Lemma counts_eq (es : list entry) :
  counts es
  = [(lit "happy", List.length (filtered es (lit "happy")));
     (lit "neutral", List.length (filtered es (lit "neutral")));
     (lit "sad", List.length (filtered es (lit "sad")))].
Proof.
  unfold counts, VALID_MOODS. cbn [map].
  rewrite tally_fold; [reflexivity | | |]; intros H; vm_compute in H; discriminate H.
Qed.

Lemma mood_known_or (e : entry) :
  mood_known e
  = str_eqb (e_mood e) (lit "happy")
    || str_eqb (e_mood e) (lit "neutral")
    || str_eqb (e_mood e) (lit "sad").
Proof.
  unfold mood_known, VALID_MOODS. cbn [str_mem].
  rewrite orb_false_r, orb_assoc. reflexivity.
Qed.

Lemma mood_known_In (e : entry) :
  mood_known e = true <-> In (e_mood e) VALID_MOODS.
Proof. apply str_mem_In. Qed.

(** The entries counted are those whose mood is one of the three. *)
Lemma known_split (es : list entry) :
  (List.length (filtered es (lit "happy"))
   + List.length (filtered es (lit "neutral"))
   + List.length (filtered es (lit "sad")))%nat
  = List.length (filter mood_known es).
Proof.
  induction es as [|e es IH]; [reflexivity|].
  unfold filtered in *. cbn [filter]. rewrite mood_known_or.
  destruct (str_eqb (e_mood e) (lit "happy")) eqn:E1;
    [apply str_eqb_eq in E1 | ];
    (destruct (str_eqb (e_mood e) (lit "neutral")) eqn:E2;
      [apply str_eqb_eq in E2 | ]);
    (destruct (str_eqb (e_mood e) (lit "sad")) eqn:E3;
      [apply str_eqb_eq in E3 | ]);
    try (rewrite E1 in E2; vm_compute in E2; discriminate E2);
    try (rewrite E1 in E3; vm_compute in E3; discriminate E3);
    try (rewrite E2 in E3; vm_compute in E3; discriminate E3);
    cbn [orb List.length]; lia.
Qed.


Lemma percent_ok (count total : nat) :
  percent count total = ret (if Nat.ltb 0 total then share count total else 0%Q).
Proof. destruct total; reflexivity. Qed.


Lemma emoji_of_get (m : pystr) :
  In m VALID_MOODS -> emoji_of m = ret (emoji_get m).
Proof. intros [<-|[<-|[<-|[]]]]; reflexivity. Qed.

Lemma summary_rows_run (items : list (pystr * nat)) (total : nat) (w : world) :
  Forall (fun item => In (fst item) VALID_MOODS) items ->
  summary_rows items total w = (Ok tt, emit (map (row_of total) items) w).
Proof.
  intros H. revert w. induction H as [|[m c] items Hm _ IH]; intros w.
  - simpl. unfold ret, emit. rewrite app_nil_r. destruct w; reflexivity.
  - cbn [summary_rows map]. unfold bind.
    rewrite (emoji_of_get m Hm), percent_ok. unfold ret, print.
    rewrite IH, emit_emit. reflexivity.
Qed.

(** [max] over a dict with three distinct keys. *)
Lemma top_three (k1 k2 k3 : pystr) (a b c : nat) :
  k1 <> k2 -> k1 <> k3 -> k2 <> k3 ->
  let cs := [(k1, a); (k2, b); (k3, c)] in
  py_max (fun m => count_of cs m) (map fst cs)
  = ret (if Nat.ltb a b then (if Nat.ltb b c then k3 else k2)
         else (if Nat.ltb a c then k3 else k1)).
Proof.
  intros H12 H13 H23 cs.
  assert (C1 : count_of cs k1 = a).
  { unfold cs; cbn [count_of]. rewrite str_eqb_refl. reflexivity. }
  assert (C2 : count_of cs k2 = b).
  { unfold cs; cbn [count_of].
    rewrite (proj2 (str_eqb_neq k1 k2) H12), str_eqb_refl. reflexivity. }
  assert (C3 : count_of cs k3 = c).
  { unfold cs; cbn [count_of].
    rewrite (proj2 (str_eqb_neq k1 k3) H13), (proj2 (str_eqb_neq k2 k3) H23),
      str_eqb_refl. reflexivity. }
  unfold py_max. subst cs. cbn [map fst fold_left]. f_equal.
  rewrite C1, C2. destruct (Nat.ltb a b); [rewrite C2, C3 | rewrite C1, C3];
    reflexivity.
Qed.

Lemma moods_distinct :
  lit "happy" <> lit "neutral" /\ lit "happy" <> lit "sad"
  /\ lit "neutral" <> lit "sad".
Proof. repeat split; intros H; vm_compute in H; discriminate H. Qed.

(** The mood [mood_summary] reports: the first of the most frequent. *)
Lemma top_of_counts (es : list entry) :
  exists top,
    py_max (fun m => count_of (counts es) m) (map fst (counts es)) = ret top
    /\ In top VALID_MOODS
    /\ (forall m, In m VALID_MOODS ->
                  (count_of (counts es) m <= count_of (counts es) top)%nat)
    /\ (forall m, before m top VALID_MOODS ->
                  (count_of (counts es) m < count_of (counts es) top)%nat).
Proof.
  destruct moods_distinct as (H12 & H13 & H23).
  rewrite counts_eq.
  set (a := List.length (filtered es (lit "happy"))).
  set (b := List.length (filtered es (lit "neutral"))).
  set (c := List.length (filtered es (lit "sad"))).
  set (cs := [(lit "happy", a); (lit "neutral", b); (lit "sad", c)]).
  assert (C1 : count_of cs (lit "happy") = a) by reflexivity.
  assert (C2 : count_of cs (lit "neutral") = b) by reflexivity.
  assert (C3 : count_of cs (lit "sad") = c) by reflexivity.
  assert (Hbefore : forall m t, before m t VALID_MOODS ->
            (m = lit "happy" /\ t = lit "neutral")
            \/ (m = lit "happy" /\ t = lit "sad")
            \/ (m = lit "neutral" /\ t = lit "sad")).
  { intros m t (x & y & z & E). unfold VALID_MOODS in E.
    destruct x as [|x0 [|x1 [|x2 x]]]; destruct y as [|y0 [|y1 y]];
      simpl in E; injection E; intros; subst; auto;
      try discriminate;
      repeat match goal with
             | H : [] = _ ++ _ :: _ |- _ => destruct (app_cons_not_nil _ _ _ H)
             | H : [] = _ :: _ |- _ => discriminate H
             end. }
  eexists. split; [apply (top_three _ _ _ a b c H12 H13 H23)|].
  fold cs.
  destruct (Nat.ltb_spec a b) as [Hab|Hab];
    [destruct (Nat.ltb_spec b c) as [Hbc|Hbc]
    | destruct (Nat.ltb_spec a c) as [Hac|Hac]].
  all: split; [unfold VALID_MOODS; simpl; auto|].
  all: split;
    [ intros m [<-|[<-|[<-|[]]]]; rewrite ?C1, ?C2, ?C3; lia
    | intros m Hb; apply Hbefore in Hb;
      destruct Hb as [[-> E]|[[-> E]|[-> E]]];
      try (exfalso; vm_compute in E; discriminate E);
      rewrite ?C1, ?C2, ?C3; lia ].
Qed.

Lemma counts_keys (es : list entry) :
  Forall (fun item => In (fst item) VALID_MOODS) (counts es).
Proof.
  rewrite counts_eq. unfold VALID_MOODS.
  repeat (apply Forall_cons; [cbn [fst In]; tauto|]). apply Forall_nil.
Qed.

Lemma mood_summary_run (r : loc) (w : world) :
  heap w r <> [] ->
  exists top,
    py_max (fun m => count_of (counts (heap w r)) m)
           (map fst (counts (heap w r))) = ret top
    /\ mood_summary r w
       = (Ok tt,
          emit (SummaryHeader (List.length (heap w r))
                :: map (row_of (List.length (heap w r))) (counts (heap w r))
                ++ [TopMood top (emoji_get top)]) w).
Proof.
  intros Hne. destruct (top_of_counts (heap w r)) as (top & Htop & Hin & _).
  exists top. split; [exact Htop|].
  unfold mood_summary, bind, deref.
  destruct (heap w r) as [|e0 es0] eqn:Hes; [congruence|]. cbn [is_empty].
  unfold print at 1. rewrite summary_rows_run by apply counts_keys.
  rewrite Htop. unfold ret. rewrite (emoji_of_get top Hin). unfold ret, print.
  rewrite !emit_emit. reflexivity.
Qed.

Lemma mood_summary_printed (r : loc) (w : world) :
  heap w r <> [] ->
  exists top,
    py_max (fun m => count_of (counts (heap w r)) m)
           (map fst (counts (heap w r))) = ret top
    /\ fst (mood_summary r w) = Ok tt
    /\ printed (mood_summary r) w
       = SummaryHeader (List.length (heap w r))
         :: map (row_of (List.length (heap w r))) (counts (heap w r))
         ++ [TopMood top (emoji_get top)].
Proof.
  intros Hne. destruct (mood_summary_run r w Hne) as (top & Htop & Hrun).
  exists top. split; [exact Htop|]. split; [rewrite Hrun; reflexivity|].
  eapply printed_emit; [exact Hrun | reflexivity].
Qed.

Lemma mood_summary_empty (r : loc) (w : world) :
  heap w r = [] ->
  fst (mood_summary r w) = Ok tt /\ printed (mood_summary r) w = [NoEntries].
Proof.
  intros Hes.
  assert (Hrun : mood_summary r w = (Ok tt, emit [NoEntries] w)).
  { unfold mood_summary, bind, deref. rewrite Hes. reflexivity. }
  split; [rewrite Hrun; reflexivity|].
  eapply printed_emit; [exact Hrun | reflexivity].
Qed.

Lemma rows_app (a b : list out) : rows (a ++ b) = rows a ++ rows b.
Proof.
  induction a as [|o a IH]; simpl; [reflexivity|].
  destruct o; simpl; rewrite ?IH; reflexivity.
Qed.

Lemma rows_row_of (total : nat) (items : list (pystr * nat)) :
  rows (map (row_of total) items)
  = map (fun item => (fst item, snd item,
                      if Nat.ltb 0 total then share (snd item) total else 0%Q))
        items.
Proof. induction items as [|i items IH]; simpl; [|rewrite IH]; reflexivity. Qed.

Lemma tops_app (a b : list out) : tops (a ++ b) = tops a ++ tops b.
Proof.
  induction a as [|o a IH]; simpl; [reflexivity|].
  destruct o; simpl; rewrite ?IH; reflexivity.
Qed.

Lemma tops_row_of (total : nat) (items : list (pystr * nat)) :
  tops (map (row_of total) items) = [].
Proof. induction items as [|i items IH]; simpl; [|rewrite IH]; reflexivity. Qed.

Lemma totals_app (a b : list out) : totals (a ++ b) = totals a ++ totals b.
Proof.
  induction a as [|o a IH]; simpl; [reflexivity|].
  destruct o; simpl; rewrite ?IH; reflexivity.
Qed.

Lemma totals_row_of (total : nat) (items : list (pystr * nat)) :
  totals (map (row_of total) items) = [].
Proof. induction items as [|i items IH]; simpl; [|rewrite IH]; reflexivity. Qed.

(** The rows a summary prints, read back. *)
Lemma summary_rows_printed (r : loc) (w : world) :
  heap w r <> [] ->
  rows (printed (mood_summary r) w)
  = map (fun item => (fst item, snd item,
                      share (snd item) (List.length (heap w r))))
        (counts (heap w r)).
Proof.
  intros Hne. destruct (mood_summary_printed r w Hne) as (top & _ & _ & ->).
  cbn [rows]. rewrite rows_app, rows_row_of. cbn [rows]. rewrite app_nil_r.
  destruct (heap w r) as [|e0 es0]; [congruence|]. reflexivity.
Qed.

End Tally.

(* ================================================================== *)
(** ** The mood summary: counts, percentages, most frequent mood *)
(* ================================================================== *)

Section Summary.
Import Codec Json Journal TextFacts Runs Tally.

Lemma sum_counts_printed (r : loc) (w : world) :
  sum_counts (rows (printed (mood_summary r) w))
  = List.length (filter mood_known (heap w r)).
Proof.
  destruct (heap w r) as [|e0 es0] eqn:Hes.
  - destruct (mood_summary_empty r w Hes) as [_ ->]. reflexivity.
  - rewrite summary_rows_printed by congruence. rewrite Hes, counts_eq.
    unfold sum_counts, list_sum. cbn [map fst snd fold_right].
    rewrite <- known_split. lia.
Qed.

(** C2, as the code has it. The counts of the summary add up to the
    number of entries whose mood is one of the fixed set: to the size
    of the collection when every mood is in the set, and to less when
    some mood is not. *)
Theorem tally_sums_to_known (r : loc) (w : world) :
  let total := sum_counts (rows (printed (mood_summary r) w)) in
  total = List.length (filter mood_known (heap w r))
  /\ (total <= List.length (heap w r))%nat
  /\ (Forall (fun e => In (e_mood e) VALID_MOODS) (heap w r) <->
      total = List.length (heap w r)).
Proof.
  intros total. subst total. rewrite sum_counts_printed.
  split; [reflexivity|]. split; [apply filter_length_le|].
  induction (heap w r) as [|e es IH]; [simpl; split; auto|].
  cbn [filter]. destruct (mood_known e) eqn:E; cbn [List.length].
  - apply mood_known_In in E. split.
    + intros H. inversion H; subst. f_equal. apply IH. assumption.
    + intros H. injection H as H. constructor; [exact E | apply IH; exact H].
  - split.
    + intros H. inversion H as [|? ? He]; subst.
      apply mood_known_In in He. congruence.
    + intros H. pose proof (filter_length_le mood_known es). lia.
Qed.

(** C5. The mood reported as most frequent has the largest count, and
    every mood that comes before it in [VALID_MOODS] has a strictly
    smaller count: among moods that tie, the first of happy, neutral,
    sad is reported. For the counts happy 2, neutral 2, sad 0 it is
    happy. *)
Theorem top_mood_first_max (r : loc) (w : world) :
  heap w r <> [] ->
  let cs := counts (heap w r) in
  exists top,
    tops (printed (mood_summary r) w) = [top]
    /\ In top VALID_MOODS
    /\ (forall m, In m VALID_MOODS -> (count_of cs m <= count_of cs top)%nat)
    /\ (forall m, before m top VALID_MOODS -> (count_of cs m < count_of cs top)%nat)
    /\ (cs = [(lit "happy", 2%nat); (lit "neutral", 2%nat); (lit "sad", 0%nat)] ->
        top = lit "happy").
Proof.
  intros Hne cs.
  destruct (mood_summary_printed r w Hne) as (top & Htop & _ & Hpr).
  destruct (top_of_counts (heap w r)) as (top' & Htop' & Hin & Hmax & Hfirst).
  assert (top' = top).
  { fold cs in Htop, Htop'. rewrite Htop in Htop'.
    apply (f_equal (fun m => m w)) in Htop'. unfold ret in Htop'. congruence. }
  subst top'. exists top. repeat split; try assumption.
  - rewrite Hpr. cbn [tops]. rewrite tops_app, tops_row_of. reflexivity.
  - intros Hcs. fold cs in Htop. rewrite Hcs in Htop.
    apply (f_equal (fun m => fst (m w))) in Htop. vm_compute in Htop.
    injection Htop as Htop. symmetry. vm_compute. exact Htop.
Qed.


(** C10. An entry whose mood is outside the fixed set is counted in the
    total of the summary and in none of its rows: the rows have the
    counts of the collection without that entry, the total is one
    more. Such an entry can come from the file, which is loaded as it
    is. *)
Theorem unknown_mood_counts_only_in_total (r : loc) (w : world)
  (before_e after_e : list entry) (e : entry) :
  heap w r = before_e ++ e :: after_e ->
  ~ In (e_mood e) VALID_MOODS ->
  map fst (rows (printed (mood_summary r) w)) = counts (before_e ++ after_e)
  /\ totals (printed (mood_summary r) w)
     = [S (List.length (before_e ++ after_e))]
  /\ exists content,
       forall w', file (fs w') = Some content -> readable (fs w') = true ->
                  fst (load_entries w')
                  = Ok (to_vals [Entry (lit "2024-05-01 09:30") (lit "angry")
                                       (lit "stuck in traffic")])
                    /\ ~ In (lit "angry") VALID_MOODS.
Proof.
  intros Hes Hout.
  assert (Hne : heap w r <> []).
  { rewrite Hes. intros H. apply app_eq_nil in H. destruct H; discriminate. }
  assert (Hf : forall m, In m VALID_MOODS ->
             List.length (filtered (before_e ++ e :: after_e) m)
             = List.length (filtered (before_e ++ after_e) m)).
  { intros m Hm. unfold filtered. rewrite !filter_app. cbn [filter].
    destruct (str_eqb (e_mood e) m) eqn:E; [|reflexivity].
    apply str_eqb_eq in E. subst m. contradiction. }
  split; [|split].
  - rewrite summary_rows_printed by exact Hne. rewrite map_map. cbn [fst].
    rewrite Hes, !counts_eq. cbn [map fst snd].
    rewrite !Hf by (unfold VALID_MOODS; simpl; tauto). reflexivity.
  - destruct (mood_summary_printed r w Hne) as (top & _ & _ & ->).
    cbn [totals]. rewrite totals_app, totals_row_of, Hes.
    rewrite !length_app. cbn [List.length totals app].
    f_equal. lia.
  - exists (map Codec.byte_of
              (dumps (fun l => l)
                 (to_vals [Entry (lit "2024-05-01 09:30") (lit "angry")
                                 (lit "stuck in traffic")]))).
    intros w' Hfile Hread. split.
    + rewrite (load_entries_readable w' _ Hfile Hread). vm_compute. reflexivity.
    + intros H. vm_compute in H. intuition discriminate.
Qed.

End Summary.

(** C2, as stated, fails: one entry with the mood "angry" makes a
    collection of size 1 whose counts add up to 0. *)
Lemma tally_sum_counterexample :
  let w := Journal.sample_world [Journal.angry_day] [] in
  Journal.sum_counts (Journal.rows (Journal.printed (Journal.mood_summary 0%nat) w))
  <> List.length (Journal.heap w 0%nat).
Proof. vm_compute. discriminate. Qed.

(* ================================================================== *)
(** ** Facts about the JSON text of strings *)
(* ================================================================== *)

Module JsonStrings.
Import Codec Json TextFacts.

(** [a * 2^k | b] is [a * 2^k + b] when [b] fits in [k] bits. *)
Lemma lor_shifted (a b k : N) :
  b < 2 ^ k -> N.lor (a * 2 ^ k) b = a * 2 ^ k + b.
Proof.
  intros Hb.
  assert (Hland : N.land (a * 2 ^ k) b = 0).
  { apply N.bits_inj. intros i. rewrite N.land_spec, N.bits_0.
    destruct (N.lt_ge_cases i k) as [Hi|Hi].
    - rewrite N.mul_pow2_bits_low by exact Hi. reflexivity.
    - rewrite <- (N.mod_small b (2 ^ k)) by exact Hb.
      rewrite N.mod_pow2_bits_high by exact Hi. apply andb_false_r. }
  rewrite (N.add_nocarry_lxor _ _ Hland). symmetry. apply N.lxor_lor. exact Hland.
Qed.

Lemma high_part (n : N) :
  n < 0x100000 ->
  N.lor 0xD800 (N.land (N.shiftr n 10) 0x3FF) = 0xD800 + n / 1024.
Proof.
  intros Hn. change 0x3FF with (N.ones 10).
  rewrite N.land_ones, N.shiftr_div_pow2. change (2 ^ 10) with 1024.
  assert (n / 1024 < 1024) by (apply N.Div0.div_lt_upper_bound; lia).
  rewrite N.mod_small by assumption.
  change 0xD800 with (54 * 2 ^ 10). apply lor_shifted.
  change (2 ^ 10) with 1024. assumption.
Qed.

Lemma low_part (n : N) :
  N.lor 0xDC00 (N.land n 0x3FF) = 0xDC00 + n mod 1024.
Proof.
  change 0x3FF with (N.ones 10). rewrite N.land_ones. change (2 ^ 10) with 1024.
  change 0xDC00 with (55 * 2 ^ 10). apply lor_shifted.
  change (2 ^ 10) with 1024. apply N.mod_lt. discriminate.
Qed.

(** Splitting a code point above 0xFFFF into a surrogate pair and
    joining the pair gives the code point back. *)
Lemma join_split (c : N) :
  0x10000 <= c -> c < 0x110000 ->
  let n := c - 0x10000 in
  let hi := N.lor 0xD800 (N.land (N.shiftr n 10) 0x3FF) in
  let lo := N.lor 0xDC00 (N.land n 0x3FF) in
  is_high_surrogate hi = true /\ is_low_surrogate lo = true
  /\ hi < 0x10000 /\ lo < 0x10000
  /\ join_surrogates hi lo = c.
Proof.
  intros Hlo Hhi n hi lo.
  assert (Hc : c = n + 0x10000) by (unfold n; lia).
  assert (Hn : n < 0x100000) by (unfold n; lia).
  assert (Hq : n / 1024 < 1024) by (apply N.Div0.div_lt_upper_bound; lia).
  assert (Hr : n mod 1024 < 1024) by (apply N.mod_lt; discriminate).
  assert (Ehi : hi = 0xD800 + n / 1024) by (apply high_part; exact Hn).
  assert (Elo : lo = 0xDC00 + n mod 1024) by apply low_part.
  unfold is_high_surrogate, is_low_surrogate, join_surrogates.
  rewrite Ehi, Elo.
  clearbody n. clear Ehi Elo hi lo.
  pose proof (N.div_mod n 1024 ltac:(discriminate)) as Hdm.
  set (q := n / 1024) in *. set (m := n mod 1024) in *. clearbody q m.
  split; [apply andb_true_iff; split; apply N.leb_le; lia|].
  split; [apply andb_true_iff; split; apply N.leb_le; lia|].
  split; [lia|]. split; [lia|].
  replace (0xD800 + q - 0xD800) with q by lia.
  replace (0xDC00 + m - 0xDC00) with m by lia.
  rewrite N.shiftl_mul_pow2, lor_shifted by (change (2 ^ 10) with 1024; exact Hr).
  change (2 ^ 10) with 1024. lia.
Qed.

Lemma unhexdigit_hexdigit (d : N) : d < 16 -> unhexdigit (hexdigit d) = Some d.
Proof.
  intros Hd.
  assert (H : d = 0 \/ d = 1 \/ d = 2 \/ d = 3 \/ d = 4 \/ d = 5 \/ d = 6 \/ d = 7
              \/ d = 8 \/ d = 9 \/ d = 10 \/ d = 11 \/ d = 12 \/ d = 13
              \/ d = 14 \/ d = 15) by lia.
  repeat (destruct H as [->|H]; [reflexivity|]). subst d. reflexivity.
Qed.

Lemma unhex4_hex4 (n : N) :
  n < 0x10000 ->
  match hex4 n with
  | [a; b; c; d] => unhex4 a b c d = Some n
  | _ => False
  end.
Proof.
  intros Hn. unfold hex4, unhex4.
  rewrite !unhexdigit_hexdigit by (apply N.mod_lt; discriminate).
  f_equal.
  assert (E256 : n / 256 = n / 16 / 16)
    by (rewrite N.Div0.div_div; reflexivity).
  assert (E4096 : n / 4096 = n / 16 / 16 / 16)
    by (rewrite !N.Div0.div_div; reflexivity).
  assert (H3 : n / 4096 < 16) by (apply N.Div0.div_lt_upper_bound; lia).
  rewrite (N.mod_small (n / 4096) 16) by exact H3.
  rewrite E256, E4096 in *.
  pose proof (N.div_mod n 16 ltac:(discriminate)) as D0.
  pose proof (N.mod_lt n 16 ltac:(discriminate)) as M0.
  pose proof (N.div_mod (n / 16) 16 ltac:(discriminate)) as D1.
  pose proof (N.mod_lt (n / 16) 16 ltac:(discriminate)) as M1.
  pose proof (N.div_mod (n / 16 / 16) 16 ltac:(discriminate)) as D2.
  pose proof (N.mod_lt (n / 16 / 16) 16 ltac:(discriminate)) as M2.
  set (a0 := n mod 16) in *. set (q1 := n / 16) in *.
  set (a1 := q1 mod 16) in *. set (q2 := q1 / 16) in *.
  set (a2 := q2 mod 16) in *. set (q3 := q2 / 16) in *.
  clearbody a0 q1 a1 q2 a2 q3. lia.
Qed.

(** *** Scanning what the encoder wrote *)

Lemma scanstring_plain (c : codepoint) (r : pystr) :
  c <> 34 -> c <> 92 -> 32 <= c ->
  scanstring (c :: r) = push c (scanstring r).
Proof.
  intros H1 H2 H3. cbn [scanstring].
  rewrite (proj2 (N.eqb_neq c 34) H1), (proj2 (N.eqb_neq c 92) H2).
  rewrite (proj2 (N.ltb_ge c 32) H3). reflexivity.
Qed.

Lemma scanstring_short (e ch : codepoint) (r : pystr) :
  e <> 117 -> backslash e = Some ch ->
  scanstring (92 :: e :: r) = push ch (scanstring r).
Proof.
  intros H1 H2. cbn [scanstring].
  change (92 =? 34) with false. change (92 =? 92) with true. cbv iota.
  rewrite (proj2 (N.eqb_neq e 117) H1), H2. reflexivity.
Qed.

Lemma scanstring_u (uni : N) (r2 : pystr) :
  uni < 0x10000 ->
  (is_high_surrogate uni = true -> no_low_ahead r2) ->
  scanstring (backslash_u uni ++ r2) = push uni (scanstring r2).
Proof.
  intros Hu Hsafe. pose proof (unhex4_hex4 uni Hu) as Hhex.
  unfold backslash_u. destruct (hex4 uni) as [|a [|b [|c [|d [|? ?]]]]];
    try contradiction.
  cbn [app scanstring].
  change (92 =? 34) with false. change (92 =? 92) with true.
  change (117 =? 117) with true. cbv iota. rewrite Hhex.
  destruct (is_high_surrogate uni); [|reflexivity].
  destruct r2 as [|x0 [|x1 [|l1 [|l2 [|l3 [|l4 r3]]]]]]; try reflexivity.
  destruct (N.eqb_spec x0 92) as [->|]; [|reflexivity].
  destruct (N.eqb_spec x1 117) as [->|]; [|reflexivity].
  cbn [andb].
  destruct (Hsafe eq_refl l1 l2 l3 l4 r3 eq_refl) as (u2 & -> & ->).
  reflexivity.
Qed.

Lemma scanstring_pair (hi lo : N) (r3 : pystr) :
  hi < 0x10000 -> lo < 0x10000 ->
  is_high_surrogate hi = true -> is_low_surrogate lo = true ->
  scanstring (backslash_u hi ++ backslash_u lo ++ r3)
  = push (join_surrogates hi lo) (scanstring r3).
Proof.
  intros Hh Hl Hhi Hlo.
  pose proof (unhex4_hex4 hi Hh) as Hhex. pose proof (unhex4_hex4 lo Hl) as Hlex.
  unfold backslash_u.
  destruct (hex4 hi) as [|a [|b [|c [|d [|? ?]]]]]; try contradiction.
  destruct (hex4 lo) as [|a' [|b' [|c' [|d' [|? ?]]]]]; try contradiction.
  cbn [app scanstring].
  change (92 =? 34) with false. change (92 =? 92) with true.
  change (117 =? 117) with true. cbv iota. rewrite Hhex, Hhi.
  cbn [andb]. rewrite Hlex, Hlo. reflexivity.
Qed.

Lemma high_not_low (c : N) :
  is_high_surrogate c = true -> is_low_surrogate c = false.
Proof.
  unfold is_high_surrogate, is_low_surrogate. intros H.
  apply andb_true_iff in H. destruct H as [_ H]. apply N.leb_le in H.
  apply andb_false_iff. left. apply N.leb_gt. lia.
Qed.

Lemma escape_digits (a b c d l1 l2 l3 l4 : N) (t r3 : pystr) :
  92 :: 117 :: a :: b :: c :: d :: t = 92 :: 117 :: l1 :: l2 :: l3 :: l4 :: r3 ->
  l1 = a /\ l2 = b /\ l3 = c /\ l4 = d.
Proof.
  intros H.
  apply (f_equal (fun l => (nth 2 l 0, nth 3 l 0, nth 4 l 0, nth 5 l 0))) in H.
  cbn [nth] in H. inversion H. auto.
Qed.

(** The escape of a code point that is not a low surrogate does not
    read as an escaped low surrogate. *)
Lemma escape_no_low_ahead (d : codepoint) (r : pystr) :
  d < 0x110000 -> is_low_surrogate d = false ->
  no_low_ahead (escape_char d ++ r).
Proof.
  intros Hd Hlow l1 l2 l3 l4 r3. unfold escape_char.
  repeat match goal with
         | |- context [if ?x =? ?k then _ else _] =>
             destruct (N.eqb_spec x k) as [->|?];
               [cbn [app]; intros [= ]; try discriminate|]
         end.
  destruct ((32 <=? d) && (d <=? 126)) eqn:Hp.
  { cbn [app]. intros [= -> _]. congruence. }
  destruct (N.ltb_spec d 0x10000) as [Hs|Hs].
  - pose proof (unhex4_hex4 d Hs) as Hhex. unfold backslash_u.
    destruct (hex4 d) as [|a [|b [|c [|e [|? ?]]]]]; try contradiction.
    cbn [app]. intros H. apply escape_digits in H.
    destruct H as (-> & -> & -> & ->). exists d. auto.
  - destruct (join_split d Hs Hd) as (Hhi & _ & Hh & _).
    set (hi := N.lor 0xD800 (N.land (N.shiftr (d - 0x10000) 10) 0x3FF)) in *.
    pose proof (unhex4_hex4 hi Hh) as Hhex. unfold backslash_u at 1.
    destruct (hex4 hi) as [|a [|b [|c [|e [|? ?]]]]]; try contradiction.
    cbn [app]. intros H. apply escape_digits in H.
    destruct H as (-> & -> & -> & ->). exists hi.
    split; [exact Hhex | apply high_not_low; exact Hhi].
Qed.

Lemma escaped_no_low_ahead (c : codepoint) (s : pystr) (rest : pystr) :
  wf_str (c :: s) -> is_high_surrogate c = true ->
  no_low_ahead (flat_map escape_char s ++ 34 :: rest).
Proof.
  intros (_ & Hnext & Hwf) Hhi. destruct s as [|d s].
  - cbn [flat_map app]. intros l1 l2 l3 l4 r3 [= ].
  - cbn [flat_map]. rewrite <- app_assoc. destruct Hwf as (Hd & _ & _).
    apply escape_no_low_ahead; [exact Hd|].
    destruct (is_low_surrogate d); [exfalso; apply Hnext; auto | reflexivity].
Qed.

(** Scanning the escaped form of a string gives the string back. *)
Lemma scanstring_escaped (s rest : pystr) :
  wf_str s ->
  scanstring (flat_map escape_char s ++ 34 :: rest) = Some (s, rest).
Proof.
  induction s as [|c s IH]; intros Hwf.
  - reflexivity.
  - pose proof (escaped_no_low_ahead c s rest Hwf) as Hsafe.
    destruct Hwf as (Hc & Hnext & Hwf). specialize (IH Hwf).
    cbn [flat_map]. rewrite <- app_assoc.
    set (tail := flat_map escape_char s ++ 34 :: rest) in *.
    unfold escape_char.
    destruct (N.eqb_spec c 34) as [->|N34].
    { cbn [app]. rewrite (scanstring_short 34 34), IH by (discriminate || reflexivity).
      reflexivity. }
    destruct (N.eqb_spec c 92) as [->|N92].
    { cbn [app]. rewrite (scanstring_short 92 92), IH by (discriminate || reflexivity).
      reflexivity. }
    destruct (N.eqb_spec c 10) as [->|N10].
    { cbn [app]. rewrite (scanstring_short 110 10), IH by (discriminate || reflexivity).
      reflexivity. }
    destruct (N.eqb_spec c 13) as [->|N13].
    { cbn [app]. rewrite (scanstring_short 114 13), IH by (discriminate || reflexivity).
      reflexivity. }
    destruct (N.eqb_spec c 9) as [->|N9].
    { cbn [app]. rewrite (scanstring_short 116 9), IH by (discriminate || reflexivity).
      reflexivity. }
    destruct (N.eqb_spec c 12) as [->|N12].
    { cbn [app]. rewrite (scanstring_short 102 12), IH by (discriminate || reflexivity).
      reflexivity. }
    destruct (N.eqb_spec c 8) as [->|N8].
    { cbn [app]. rewrite (scanstring_short 98 8), IH by (discriminate || reflexivity).
      reflexivity. }
    destruct ((32 <=? c) && (c <=? 126)) eqn:Hp.
    { apply andb_true_iff in Hp. destruct Hp as [Hp _]. apply N.leb_le in Hp.
      cbn [app]. rewrite scanstring_plain, IH by assumption. reflexivity. }
    destruct (N.ltb_spec c 0x10000) as [Hs|Hs].
    + rewrite scanstring_u, IH by assumption. reflexivity.
    + destruct (join_split c Hs Hc) as (Hhi & Hlo & Hh & Hl & Hjoin).
      rewrite <- app_assoc, scanstring_pair, IH by assumption.
      cbn [push]. cbv zeta in Hjoin. rewrite Hjoin. reflexivity.
Qed.

End JsonStrings.

(* ================================================================== *)
(** ** Scanning the JSON text of a list of entries *)
(* ================================================================== *)

Module JsonEntries.
Import Codec Json Journal TextFacts JsonStrings.

Lemma scan_once_quote (f : nat) (r : pystr) :
  scan_once (S f) (34 :: r)
  = match scanstring r with
    | Some (str, rest) => Scanned (VStr str) rest
    | None => Invalid
    end.
Proof. reflexivity. Qed.

Lemma scan_once_brace (f : nat) (r : pystr) :
  scan_once (S f) (123 :: r)
  = match skip_ws r with
    | d :: r' =>
      if d =? 125 then Scanned (VDict []) r'
      else if d =? 34 then object_loop f r' []
      else Invalid
    | [] => Invalid
    end.
Proof. reflexivity. Qed.

Lemma scan_once_bracket (f : nat) (r : pystr) :
  scan_once (S f) (91 :: r)
  = match skip_ws r with
    | d :: r' =>
      if d =? 93 then Scanned (VList []) r'
      else array_loop f (d :: r') []
    | [] => Invalid
    end.
Proof. reflexivity. Qed.

Lemma object_loop_eq (f : nat) (s : pystr) (acc : list (pystr * pyval)) :
  object_loop (S f) s acc
  = match scanstring s with
    | None => Invalid
    | Some (key, r) =>
      match skip_ws r with
      | c :: r1 =>
        if c =? 58 then
          match scan_once f (skip_ws r1) with
          | Scanned v r2 =>
            match skip_ws r2 with
            | d :: r3 =>
              if d =? 125
              then Scanned (VDict (dict_of_pairs (rev ((key, v) :: acc)))) r3
              else if d =? 44 then
                match skip_ws r3 with
                | q :: r4 =>
                  if q =? 34 then object_loop f r4 ((key, v) :: acc)
                  else Invalid
                | [] => Invalid
                end
              else Invalid
            | [] => Invalid
            end
          | Invalid => Invalid
          | Starved => Starved
          end
        else Invalid
      | [] => Invalid
      end
    end.
Proof. reflexivity. Qed.

Lemma array_loop_eq (f : nat) (s : pystr) (acc : list pyval) :
  array_loop (S f) s acc
  = match scan_once f s with
    | Scanned v r =>
      match skip_ws r with
      | d :: r1 =>
        if d =? 93 then Scanned (VList (rev (v :: acc))) r1
        else if d =? 44 then array_loop f (skip_ws r1) (v :: acc)
        else Invalid
      | [] => Invalid
      end
    | Invalid => Invalid
    | Starved => Starved
    end.
Proof. reflexivity. Qed.

Lemma skip_ws_stop (c : codepoint) (r : pystr) :
  is_ws c = false -> skip_ws (c :: r) = c :: r.
Proof. intros H. cbn [skip_ws]. rewrite H. reflexivity. Qed.

Lemma skip_ws_indent (k : nat) (c : codepoint) (r : pystr) :
  is_ws c = false -> skip_ws (newline_indent k ++ c :: r) = c :: r.
Proof.
  intros H. unfold newline_indent. cbn [app skip_ws].
  change (is_ws 10) with true. cbv iota.
  induction (2 * k)%nat as [|n IH]; cbn [repeat app skip_ws].
  - rewrite H. reflexivity.
  - change (is_ws 32) with true. cbv iota. exact IH.
Qed.

(** A string value, scanned. *)
Lemma scan_string (f : nat) (s rest : pystr) :
  wf_str s ->
  scan_once (S f) (encode_basestring_ascii s ++ rest) = Scanned (VStr s) rest.
Proof.
  intros H. unfold encode_basestring_ascii. cbn [app].
  rewrite <- app_assoc. cbn [app].
  rewrite scan_once_quote, scanstring_escaped by exact H. reflexivity.
Qed.

(** One member of an object whose value is a string: the key (after
    its opening quote), the colon, the value. *)
Lemma object_loop_member (f : nat) (key s tail : pystr)
  (acc : list (pystr * pyval)) :
  wf_str key -> wf_str s ->
  object_loop (S (S f))
    (flat_map escape_char key ++ 34 :: 58 :: 32
       :: encode_basestring_ascii s ++ tail) acc
  = match skip_ws tail with
    | d :: r3 =>
      if d =? 125
      then Scanned (VDict (dict_of_pairs (rev ((key, VStr s) :: acc)))) r3
      else if d =? 44 then
        match skip_ws r3 with
        | q :: r4 =>
          if q =? 34 then object_loop (S f) r4 ((key, VStr s) :: acc)
          else Invalid
        | [] => Invalid
        end
      else Invalid
    | [] => Invalid
    end.
Proof.
  intros Hk Hs. rewrite object_loop_eq, scanstring_escaped by exact Hk.
  rewrite (skip_ws_stop 58) by reflexivity.
  change (58 =? 58) with true. cbv iota.
  assert (E : skip_ws (32 :: encode_basestring_ascii s ++ tail)
              = encode_basestring_ascii s ++ tail).
  { cbn [skip_ws]. change (is_ws 32) with true. cbv iota.
    unfold encode_basestring_ascii. cbn [app]. apply skip_ws_stop. reflexivity. }
  rewrite E, scan_string by exact Hs. reflexivity.
Qed.

Section Entries.

Variable float_repr : pystr -> pystr.

(** The text of one entry, at the indentation level of the list. *)
Lemma entry_text (e : entry) (rest : pystr) :
  iterencode float_repr (to_val e) 1 ++ rest
  = 123 :: newline_indent 2 ++ 34
    :: flat_map escape_char (lit "date") ++ 34 :: 58 :: 32
    :: encode_basestring_ascii (e_date e)
    ++ 44 :: newline_indent 2 ++ 34
    :: flat_map escape_char (lit "mood") ++ 34 :: 58 :: 32
    :: encode_basestring_ascii (e_mood e)
    ++ 44 :: newline_indent 2 ++ 34
    :: flat_map escape_char (lit "text") ++ 34 :: 58 :: 32
    :: encode_basestring_ascii (e_text e)
    ++ newline_indent 1 ++ 125 :: rest.
Proof.
  unfold to_val. cbn [iterencode].
  change (lit ": ") with [58; 32].
  unfold encode_basestring_ascii at 1 3 5.
  repeat (rewrite <- ?app_assoc, <- ?app_comm_cons; cbn [app]).
  reflexivity.
Qed.

Lemma scan_entry (f : nat) (e : entry) (rest : pystr) :
  wf_entry e ->
  scan_once (5 + f) (iterencode float_repr (to_val e) 1 ++ rest)
  = Scanned (to_val e) rest.
Proof.
  intros (Hd & Hm & Ht). rewrite entry_text.
  change (5 + f)%nat with (S (S (S (S (S f))))).
  rewrite scan_once_brace, skip_ws_indent by reflexivity.
  change (34 =? 125) with false. change (34 =? 34) with true. cbv iota.
  rewrite object_loop_member; [| vm_compute; intuition discriminate | exact Hd].
  rewrite (skip_ws_stop 44) by reflexivity.
  change (44 =? 125) with false. change (44 =? 44) with true. cbv iota.
  rewrite skip_ws_indent by reflexivity.
  change (34 =? 34) with true. cbv iota.
  rewrite object_loop_member; [| vm_compute; intuition discriminate | exact Hm].
  rewrite (skip_ws_stop 44) by reflexivity.
  change (44 =? 125) with false. change (44 =? 44) with true. cbv iota.
  rewrite skip_ws_indent by reflexivity.
  change (34 =? 34) with true. cbv iota.
  rewrite object_loop_member; [| vm_compute; intuition discriminate | exact Ht].
  rewrite skip_ws_indent by reflexivity.
  change (125 =? 125) with true. cbv iota.
  reflexivity.
Qed.

End Entries.

End JsonEntries.

(* ================================================================== *)
(** ** Saving and loading a list of entries *)
(* ================================================================== *)

Module RoundTrip.
Import Codec Json Journal TextFacts Runs JsonStrings JsonEntries.

Section Dump.

Variable float_repr : pystr -> pystr.

Lemma iterencode_list (x : pyval) (xs : list pyval) (level : nat) :
  iterencode float_repr (VList (x :: xs)) level
  = 91 :: newline_indent (S level) ++ iterencode float_repr x (S level)
    ++ more_items float_repr xs (S level) ++ newline_indent level ++ [93].
Proof.
  cbn [iterencode]. do 3 f_equal. f_equal.
  induction xs as [|y ys IH]; [reflexivity|].
  cbn [more_items]. rewrite <- IH. reflexivity.
Qed.

Lemma entry_starts (e : entry) (rest : pystr) :
  exists r : pystr,
    iterencode float_repr (to_val e) 1 ++ rest = @cons codepoint 123 r.
Proof. rewrite entry_text. eexists. reflexivity. Qed.

(** The loop of [JSONArray] over the text of a list of entries. *)
Lemma array_loop_entries (es : list entry) :
  forall (e : entry) (f : nat) (acc : list pyval) (rest : pystr),
    wf_entry e -> Forall wf_entry es ->
    array_loop (List.length es + 6 + f)
      (iterencode float_repr (to_val e) 1
       ++ more_items float_repr (map to_val es) 1
       ++ newline_indent 0 ++ 93 :: rest) acc
    = Scanned (VList (rev acc ++ to_val e :: map to_val es)) rest.
Proof.
  induction es as [|e' es IH]; intros e f acc rest He Hes.
  - change (List.length (@nil entry) + 6 + f)%nat with (S (5 + f)).
    rewrite array_loop_eq, scan_entry by exact He.
    cbn [map more_items app]. rewrite (skip_ws_indent 0 93) by reflexivity.
    change (93 =? 93) with true. cbv iota. reflexivity.
  - inversion Hes as [|? ? He' Hes']; subst.
    replace (List.length (e' :: es) + 6 + f)%nat
      with (S (5 + (List.length es + 1 + f))) by (cbn [List.length]; lia).
    rewrite array_loop_eq, scan_entry by exact He.
    cbn [map more_items]. rewrite <- app_comm_cons.
    rewrite (skip_ws_stop 44) by reflexivity.
    change (44 =? 93) with false. change (44 =? 44) with true. cbv iota.
    rewrite <- !app_assoc.
    destruct (entry_starts e'
                (more_items float_repr (map to_val es) 1
                 ++ newline_indent 0 ++ 93 :: rest)) as [r Hr].
    rewrite Hr, skip_ws_indent by reflexivity. rewrite <- Hr.
    replace (5 + (List.length es + 1 + f))%nat
      with (List.length es + 6 + f)%nat by lia.
    rewrite IH by assumption.
    cbn [rev]. rewrite <- app_assoc. reflexivity.
Qed.

Lemma more_items_length (vs : list pyval) (level : nat) :
  (List.length vs <= List.length (more_items float_repr vs level))%nat.
Proof.
  induction vs as [|v vs IH]; [apply Nat.le_refl|].
  cbn [more_items List.length]. rewrite !length_app. lia.
Qed.

(** [json.loads] of what [json.dump] writes for a list of entries. *)
Lemma loads_dumps (es : list entry) :
  Forall wf_entry es ->
  loads (dumps float_repr (to_vals es)) = Some (to_vals es).
Proof.
  intros Hes. destruct es as [|e es]; [reflexivity|].
  inversion Hes as [|? ? He Hes']; subst.
  unfold dumps, to_vals. cbn [map]. rewrite iterencode_list.
  set (body := iterencode float_repr (to_val e) 1
               ++ more_items float_repr (map to_val es) 1
               ++ newline_indent 0 ++ [93]).
  unfold loads. cbn [startswith]. change (0xFEFF =? 91) with false. cbv iota.
  cbn [andb]. rewrite (skip_ws_stop 91) by reflexivity.
  assert (Hlen : (List.length es + 6
                  <= 2 * List.length (newline_indent 1 ++ body))%nat).
  { subst body. rewrite !length_app.
    pose proof (more_items_length (map to_val es) 1) as H.
    rewrite length_map in H. cbn [newline_indent List.length repeat Nat.mul]. lia. }
  unfold budget. cbn [List.length].
  replace (2 * S (List.length (newline_indent 1 ++ body)) + 1)%nat
    with (S (List.length es + 6
             + (2 * S (List.length (newline_indent 1 ++ body))
                - (List.length es + 6)))) by lia.
  rewrite scan_once_bracket.
  subst body.
  destruct (entry_starts e
              (more_items float_repr (map to_val es) 1
               ++ newline_indent 0 ++ [93])) as [r Hr].
  rewrite Hr, skip_ws_indent by reflexivity.
  change (123 =? 93) with false. cbv iota. rewrite <- Hr.
  rewrite array_loop_entries by assumption. reflexivity.
Qed.

(** *** The characters of the text written *)

Lemma plain_hexdigit (d : N) : d < 16 -> plain (hexdigit d).
Proof.
  intros H. unfold hexdigit, plain.
  destruct (N.ltb_spec d 10); right; lia.
Qed.

Lemma plain_backslash_u (n : N) : Forall plain (backslash_u n).
Proof.
  unfold backslash_u, hex4.
  repeat (apply Forall_cons;
          [first [apply plain_hexdigit; apply N.mod_lt; discriminate
                 | right; lia] |]).
  apply Forall_nil.
Qed.

Lemma plain_escape_char (c : codepoint) : Forall plain (escape_char c).
Proof.
  unfold escape_char.
  repeat match goal with
         | |- context [if ?x =? ?k then _ else _] =>
             destruct (N.eqb_spec x k) as [->|?];
               [repeat (apply Forall_cons; [right; lia|]); apply Forall_nil|]
         end.
  destruct ((32 <=? c) && (c <=? 126)) eqn:Hp.
  { apply andb_true_iff in Hp. destruct Hp as [H1 H2].
    apply N.leb_le in H1, H2. apply Forall_cons; [right; lia | apply Forall_nil]. }
  destruct (c <? 0x10000); [apply plain_backslash_u|].
  apply Forall_app. split; apply plain_backslash_u.
Qed.

Lemma plain_string (s : pystr) : Forall plain (encode_basestring_ascii s).
Proof.
  unfold encode_basestring_ascii. apply Forall_cons; [right; lia|].
  apply Forall_app. split; [|apply Forall_cons; [right; lia | apply Forall_nil]].
  induction s as [|c s IH]; cbn [flat_map]; [apply Forall_nil|].
  apply Forall_app. split; [apply plain_escape_char | exact IH].
Qed.

Lemma plain_indent (k : nat) : Forall plain (newline_indent k).
Proof.
  unfold newline_indent. apply Forall_cons; [left; reflexivity|].
  induction (2 * k)%nat as [|n IH]; cbn [repeat];
    [apply Forall_nil | apply Forall_cons; [right; lia | exact IH]].
Qed.

Ltac plain_parts :=
  repeat first
    [ apply Forall_nil
    | apply plain_string
    | apply plain_indent
    | apply Forall_app; split
    | apply Forall_cons; [solve [right; lia | left; reflexivity] |] ].

Lemma plain_entry (e : entry) : Forall plain (iterencode float_repr (to_val e) 1).
Proof.
  unfold to_val. cbn [iterencode]. change (lit ": ") with [58; 32]. plain_parts.
Qed.

Lemma plain_dumps (es : list entry) : Forall plain (dumps float_repr (to_vals es)).
Proof.
  destruct es as [|e es].
  - change (dumps float_repr (to_vals [])) with [91; 93]. plain_parts.
  - unfold dumps, to_vals. cbn [map]. rewrite iterencode_list.
    apply Forall_cons; [right; lia|].
    apply Forall_app; split; [apply plain_indent|].
    apply Forall_app; split; [apply plain_entry|].
    apply Forall_app; split; [|plain_parts].
    induction es as [|e' es IH]; cbn [map more_items]; [apply Forall_nil|].
    apply Forall_cons; [right; lia|].
    apply Forall_app; split; [apply plain_indent|].
    apply Forall_app; split; [apply plain_entry | exact IH].
Qed.

End Dump.

(** *** Plain text through the file *)

Lemma to_N_byte_of (c : N) : c < 256 -> Byte.to_N (byte_of c) = c.
Proof.
  intros H. unfold byte_of. destruct (Byte.of_N c) as [b|] eqn:E.
  - apply Byte.to_of_N. exact E.
  - pose proof (Byte.to_of_N_option_map c) as H'. rewrite E in H'.
    destruct (N.leb_spec c 255); [discriminate H' | lia].
Qed.

Lemma utf8_encode_plain (t : pystr) :
  Forall plain t -> utf8_encode t = Some (map byte_of t).
Proof.
  induction 1 as [|c t Hc _ IH]; [reflexivity|].
  cbn [utf8_encode map]. unfold utf8_encode_cp.
  assert (Hlt : (c <? 0x80) = true) by (apply N.ltb_lt; destruct Hc; lia).
  rewrite Hlt, IH. reflexivity.
Qed.

Lemma utf8_decode_plain (t : pystr) :
  Forall plain t -> utf8_decode (map byte_of t) = Some t.
Proof.
  induction 1 as [|c t Hc _ IH]; [reflexivity|].
  cbn [utf8_decode map].
  rewrite to_N_byte_of by (destruct Hc; lia).
  assert (Hlt : (c <? 0x80) = true) by (apply N.ltb_lt; destruct Hc; lia).
  rewrite Hlt, IH. reflexivity.
Qed.

Lemma translate_newlines_plain (t : pystr) :
  Forall plain t -> translate_newlines t = t.
Proof.
  induction 1 as [|c t Hc _ IH]; [reflexivity|].
  cbn [translate_newlines].
  assert (Hne : (c =? 13) = false) by (apply N.eqb_neq; destruct Hc; lia).
  rewrite Hne, IH. reflexivity.
Qed.

Lemma read_text_plain (t : pystr) :
  Forall plain t -> read_text (map byte_of t) = Some t.
Proof.
  intros H. unfold read_text. rewrite utf8_decode_plain by exact H.
  cbn [option_map]. rewrite translate_newlines_plain by exact H. reflexivity.
Qed.

(** *** Saving *)

Lemma save_entries_run float_repr (es : list entry) (w : world) :
  save_entries float_repr (to_vals es) w
  = match writing (fs w) with
    | CanWrite =>
        (Ok true,
         set_file (Some (map byte_of (dumps float_repr (to_vals es))))
                  (count_save w))
    | WriteDenied => (Ok false, emit [ErrorSaving] (count_save w))
    | DiskFull room =>
        (Ok false,
         emit [ErrorSaving]
           (set_file (Some (firstn room
                              (map byte_of (dumps float_repr (to_vals es)))))
                     (count_save w)))
    end.
Proof.
  unfold save_entries, try_except, bind, write_file.
  rewrite (utf8_encode_plain _ (plain_dumps float_repr es)).
  cbn [fs count_save writing]. destruct (writing (fs w)); reflexivity.
Qed.

Lemma valid_wf (e : entry) : valid_entry e -> wf_entry e.
Proof.
  intros (Hd & Hm & _ & Ht). repeat split; try assumption.
  destruct Hm as [<-|[<-|[<-|[]]]]; vm_compute; intuition discriminate.
Qed.

End RoundTrip.

(** C1. Saving a valid collection and loading it again gives the same
    list of the same dicts: when [save_entries] reports success and
    the file can be read, [load_entries] returns the list saved, in
    the same order and with the same values, and prints nothing. *)
Theorem save_then_load (float_repr : pystr -> pystr)
  (es : list Journal.entry) (w : Journal.world) :
  Forall Journal.valid_entry es ->
  fst (Journal.save_entries float_repr (Journal.to_vals es) w) = Journal.Ok true ->
  Journal.readable (Journal.fs w) = true ->
  let w1 := snd (Journal.save_entries float_repr (Journal.to_vals es) w) in
  Journal.load_entries w1 = (Journal.Ok (Journal.to_vals es), w1).
Proof.
  intros Hvalid Hsaved Hread w1. subst w1.
  rewrite RoundTrip.save_entries_run in *.
  destruct (Journal.writing (Journal.fs w)) eqn:Hw; try discriminate Hsaved.
  cbn [snd].
  rewrite (Runs.load_entries_readable _
             (map Codec.byte_of (Json.dumps float_repr (Journal.to_vals es))))
    by (try reflexivity; exact Hread).
  rewrite RoundTrip.read_text_plain by apply RoundTrip.plain_dumps.
  rewrite RoundTrip.loads_dumps; [reflexivity|].
  eapply Forall_impl; [|exact Hvalid]. apply RoundTrip.valid_wf.
Qed.

(* ================================================================== *)
(** ** The recursion budget of [loads] is never used up *)
(* ================================================================== *)

Module Budget.
Import Codec Json TextFacts JsonEntries.

(** Lengths of texts, whatever name their type goes by. *)
Ltac llia := unfold pystr, codepoint in *; cbn [List.length] in *; lia.

Lemma push_some (c : codepoint) (x : option (pystr * pystr)) (str r : pystr) :
  push c x = Some (str, r) -> exists str', x = Some (str', r).
Proof.
  destruct x as [[s' r']|]; simpl; [|discriminate].
  intros [= <- <-]. exists s'. reflexivity.
Qed.

(** [scanstring] reads at least the closing quote. *)
Lemma scanstring_shorter (n : nat) :
  forall s str r,
    (List.length s <= n)%nat -> scanstring s = Some (str, r) ->
    (List.length r < List.length s)%nat.
Proof.
  induction n as [|n IH]; intros s str r Hn H.
  - destruct s; [discriminate H | simpl in Hn; llia].
  - destruct s as [|c s]; [discriminate H|].
    cbn [scanstring] in H. cbn [List.length] in *.
    repeat match type of H with
           | Some _ = Some _ => injection H as <- <-
           | None = Some _ => discriminate H
           | push _ _ = Some _ =>
               apply push_some in H; destruct H as [? H];
               apply IH in H; cbn [List.length] in *; [llia | llia]
           | context [match ?x with _ => _ end] =>
               destruct x eqn:?; cbn [List.length] in *
           end; llia.
Qed.

Lemma skip_ws_le (s : pystr) :
  (List.length (skip_ws s) <= List.length s)%nat.
Proof.
  induction s as [|c s IH]; [apply Nat.le_refl|].
  cbn [skip_ws]. destruct (is_ws c); cbn [List.length]; llia.
Qed.

Lemma digits_le (s ds r : pystr) :
  digits s = (ds, r) ->
  (List.length r + List.length ds = List.length s)%nat.
Proof.
  revert ds r; induction s as [|c s IH]; intros ds r H; cbn [digits] in H.
  - injection H as <- <-. reflexivity.
  - destruct (is_digit c).
    + destruct (digits s) as [ds' r'] eqn:E. injection H as <- <-.
      specialize (IH _ _ eq_refl). cbn [List.length]. llia.
    + injection H as <- <-. cbn [List.length]. llia.
Qed.

Lemma match_integer_shorter (s ds r : pystr) (neg : bool) :
  match_integer s = Some (neg, ds, r) ->
  (List.length r < List.length s)%nat.
Proof.
  unfold match_integer.
  assert (G : forall (b : bool) t,
                        match t with
                        | c :: r' =>
                          if c =? 48 then Some (b, [48], r')
                          else if is_digit c
                               then let (ds0, rest) := digits t in
                                    Some (b, ds0, rest)
                               else None
                        | [] => None
                        end = Some (neg, ds, r) ->
                        (List.length r < List.length t)%nat).
  { intros b [|c t]; [discriminate|].
    destruct (c =? 48); [intros G; inversion G; subst; llia|].
    destruct (is_digit c) eqn:Ed; [|discriminate].
    destruct (digits (c :: t)) as [ds0 rest] eqn:E.
    intros G; inversion G; subst. pose proof (digits_le _ _ _ E) as L.
    cbn [digits] in E. rewrite Ed in E. destruct (digits t).
    inversion E; subst. cbn [List.length] in *. llia. }
  destruct s as [|c s]; [discriminate|].
  destruct (c =? 45); intros H.
  - apply G in H. cbn [List.length]. llia.
  - exact (G false (c :: s) H).
Qed.

Lemma match_frac_le (s f r : pystr) :
  match_frac s = (f, r) -> (List.length r <= List.length s)%nat.
Proof.
  unfold match_frac. destruct s as [|c s]; [intros [= <- <-]; llia|].
  destruct (c =? 46); [|intros [= <- <-]; llia].
  destruct (digits s) as [[|d ds] rest] eqn:E; intros [= <- <-]; [llia|].
  apply digits_le in E. cbn [List.length] in *. llia.
Qed.

Lemma match_exp_le (s x r : pystr) :
  match_exp s = (x, r) -> (List.length r <= List.length s)%nat.
Proof.
  unfold match_exp. destruct s as [|c s]; [intros [= <- <-]; llia|].
  destruct ((c =? 101) || (c =? 69)); [|intros [= <- <-]; llia].
  destruct (match s with
            | [] => ([], s)
            | g :: r' => if (g =? 45) || (g =? 43) then ([g], r') else ([], s)
            end) as [sign r1] eqn:Es.
  assert (L1 : (List.length r1 <= List.length s)%nat).
  { destruct s as [|g s']; [injection Es as <- <-; llia|].
    destruct ((g =? 45) || (g =? 43)); injection Es as <- <-;
      cbn [List.length]; llia. }
  destruct (digits r1) as [[|d ds] rest] eqn:E; intros [= <- <-]; [llia|].
  apply digits_le in E. cbn [List.length] in *. llia.
Qed.

Lemma match_number_shorter (s r : pystr) (v : pyval) :
  match_number s = Some (v, r) -> (List.length r < List.length s)%nat.
Proof.
  unfold match_number.
  destruct (match_integer s) as [[[neg ds] r0]|] eqn:Ei; [|discriminate].
  apply match_integer_shorter in Ei.
  destruct (match_frac r0) as [frac r1] eqn:Ef. apply match_frac_le in Ef.
  destruct (match_exp r1) as [ex r2] eqn:Ee. apply match_exp_le in Ee.
  destruct frac, ex; intros [= <- <-]; llia.
Qed.

Lemma keyword_shorter (w : string) (v v' : pyval) (s r : pystr) :
  w <> EmptyString -> keyword w v s = Scanned v' r ->
  (List.length r < List.length s)%nat.
Proof.
  intros Hw. unfold keyword.
  destruct (startswith (lit w) s) eqn:E; [|discriminate].
  intros [= <- <-]. apply startswith_app in E. destruct E as [post ->].
  assert (Hl : List.length (lit w) = String.length w).
  { unfold lit. rewrite length_map. clear. induction w; simpl; auto. }
  assert (Hpos : (0 < List.length (lit w))%nat).
  { rewrite Hl. destruct w; [congruence | simpl; lia]. }
  rewrite <- Hl, skipn_app, skipn_all, Nat.sub_diag.
  cbn [skipn app]. rewrite length_app. llia.
Qed.

(** What the three scanning functions return is shorter than what
    they were given. *)
Lemma scanned_shorter (f : nat) :
  (forall s v r, scan_once f s = Scanned v r ->
                 (List.length r < List.length s)%nat)
  /\ (forall s acc v r, object_loop f s acc = Scanned v r ->
                        (List.length r < List.length s)%nat)
  /\ (forall s acc v r, array_loop f s acc = Scanned v r ->
                        (List.length r < List.length s)%nat).
Proof.
  induction f as [|f (IHs & IHo & IHa)];
    [repeat split; intros; discriminate|].
  split; [|split].
  - intros [|c s] v r H; [discriminate H|]. cbn [scan_once] in H.
    cbn [List.length].
    destruct (c =? 34).
    { destruct (scanstring s) as [[str rest]|] eqn:E; [|discriminate H].
      injection H as <- <-.
      apply (scanstring_shorter _ _ _ _ (Nat.le_refl _)) in E. llia. }
    destruct (c =? 123).
    { pose proof (skip_ws_le s) as L.
      destruct (skip_ws s) as [|d r'] eqn:E; [discriminate H|].
      cbn [List.length] in L.
      destruct (d =? 125); [injection H as <- <-; llia|].
      destruct (d =? 34); [|discriminate H].
      apply IHo in H. llia. }
    destruct (c =? 91).
    { pose proof (skip_ws_le s) as L.
      destruct (skip_ws s) as [|d r'] eqn:E; [discriminate H|].
      cbn [List.length] in L.
      destruct (d =? 93); [injection H as <- <-; llia|].
      apply IHa in H. cbn [List.length] in H. llia. }
    repeat match type of H with
           | (if ?b then _ else _) = _ =>
               destruct b;
                 [apply keyword_shorter in H;
                  [cbn [List.length] in H; exact H | discriminate]|]
           end.
    destruct (match_number (c :: s)) as [[v0 rest]|] eqn:E; [|discriminate H].
    injection H as <- <-. apply match_number_shorter in E. exact E.
  - intros s acc v r H. rewrite object_loop_eq in H.
    destruct (scanstring s) as [[key r0]|] eqn:E; [|discriminate H].
    apply (scanstring_shorter _ _ _ _ (Nat.le_refl _)) in E.
    pose proof (skip_ws_le r0) as L0.
    destruct (skip_ws r0) as [|c r1]; [discriminate H|]. cbn [List.length] in L0.
    destruct (c =? 58); [|discriminate H].
    pose proof (skip_ws_le r1) as L1.
    destruct (scan_once f (skip_ws r1)) as [v0 r2| |] eqn:Es; try discriminate H.
    apply IHs in Es. pose proof (skip_ws_le r2) as L2.
    destruct (skip_ws r2) as [|d r3]; [discriminate H|]. cbn [List.length] in L2.
    destruct (d =? 125); [injection H as <- <-; llia|].
    destruct (d =? 44); [|discriminate H].
    pose proof (skip_ws_le r3) as L3.
    destruct (skip_ws r3) as [|q r4]; [discriminate H|]. cbn [List.length] in L3.
    destruct (q =? 34); [|discriminate H].
    apply IHo in H. llia.
  - intros s acc v r H. rewrite array_loop_eq in H.
    destruct (scan_once f s) as [v0 r0| |] eqn:Es; try discriminate H.
    apply IHs in Es. pose proof (skip_ws_le r0) as L0.
    destruct (skip_ws r0) as [|d r1]; [discriminate H|]. cbn [List.length] in L0.
    destruct (d =? 93); [injection H as <- <-; llia|].
    destruct (d =? 44); [|discriminate H].
    pose proof (skip_ws_le r1) as L1.
    apply IHa in H. llia.
Qed.

(** With a budget of twice the length of the text (and one or two
    more), no scanning function runs out of it. *)
Lemma never_starved (f : nat) :
  (forall s, (2 * List.length s + 1 <= f)%nat -> scan_once f s <> Starved)
  /\ (forall s acc, (2 * List.length s + 2 <= f)%nat ->
                    object_loop f s acc <> Starved)
  /\ (forall s acc, (2 * List.length s + 2 <= f)%nat ->
                    array_loop f s acc <> Starved).
Proof.
  induction f as [|f (IHs & IHo & IHa)]; [repeat split; intros; llia|].
  destruct (scanned_shorter f) as (Ss & So & Sa).
  split; [|split].
  - intros [|c s] Hf; [discriminate|]. cbn [scan_once]. cbn [List.length] in Hf.
    destruct (c =? 34).
    { destruct (scanstring s) as [[str rest]|]; discriminate. }
    destruct (c =? 123).
    { pose proof (skip_ws_le s) as L.
      destruct (skip_ws s) as [|d r']; [discriminate|]. cbn [List.length] in L.
      destruct (d =? 125); [discriminate|].
      destruct (d =? 34); [|discriminate]. apply IHo. llia. }
    destruct (c =? 91).
    { pose proof (skip_ws_le s) as L.
      destruct (skip_ws s) as [|d r']; [discriminate|]. cbn [List.length] in L.
      destruct (d =? 93); [discriminate|]. apply IHa. cbn [List.length]. llia. }
    unfold keyword.
    repeat match goal with
           | |- (if ?b then _ else _) <> _ => destruct b
           end; try discriminate.
    destruct (match_number (c :: s)) as [[v0 rest]|]; discriminate.
  - intros s acc Hf. rewrite object_loop_eq.
    destruct (scanstring s) as [[key r0]|] eqn:E; [|discriminate].
    apply (scanstring_shorter _ _ _ _ (Nat.le_refl _)) in E.
    pose proof (skip_ws_le r0) as L0.
    destruct (skip_ws r0) as [|c r1]; [discriminate|]. cbn [List.length] in L0.
    destruct (c =? 58); [|discriminate].
    pose proof (skip_ws_le r1) as L1.
    destruct (scan_once f (skip_ws r1)) as [v0 r2| |] eqn:Es; try discriminate.
    + apply Ss in Es. pose proof (skip_ws_le r2) as L2.
      destruct (skip_ws r2) as [|d r3]; [discriminate|]. cbn [List.length] in L2.
      destruct (d =? 125); [discriminate|].
      destruct (d =? 44); [|discriminate].
      pose proof (skip_ws_le r3) as L3.
      destruct (skip_ws r3) as [|q r4]; [discriminate|]. cbn [List.length] in L3.
      destruct (q =? 34); [|discriminate]. apply IHo. llia.
    + exfalso. apply (IHs (skip_ws r1)); [llia | exact Es].
  - intros s acc Hf. rewrite array_loop_eq.
    destruct (scan_once f s) as [v0 r0| |] eqn:Es; try discriminate.
    + apply Ss in Es. pose proof (skip_ws_le r0) as L0.
      destruct (skip_ws r0) as [|d r1]; [discriminate|]. cbn [List.length] in L0.
      destruct (d =? 93); [discriminate|].
      destruct (d =? 44); [|discriminate].
      pose proof (skip_ws_le r1) as L1. apply IHa. llia.
    + exfalso. apply (IHs s); [llia | exact Es].
Qed.

(** [loads] never runs out of budget: its [None] is a
    [JSONDecodeError]. *)
Lemma scan_once_fed (s : pystr) : scan_once (budget s) (skip_ws s) <> Starved.
Proof.
  destruct (never_starved (budget s)) as (H & _ & _). apply H.
  unfold budget. pose proof (skip_ws_le s). llia.
Qed.

End Budget.

(* ================================================================== *)
(** ** Loading a file that is not text *)
(* ================================================================== *)

Section Loading.
Import Codec Json Journal Runs.

(** A file that reads as text but not as JSON gives the empty list and
    the warning. *)
Lemma load_entries_corrupted (w : world) (bs : bytes) (t : pystr) :
  file (fs w) = Some bs -> readable (fs w) = true ->
  read_text bs = Some t -> loads t = None ->
  load_entries w = (Ok (VList []), emit [WarnCorrupted] w).
Proof.
  intros Hf Hr Ht Hl. rewrite (load_entries_readable w bs Hf Hr), Ht, Hl.
  reflexivity.
Qed.

(** A file whose bytes are not UTF-8 makes [load_entries] raise: the
    error of the decoder is neither of the two it catches. *)
Lemma load_entries_undecodable (w : world) (bs : bytes) :
  file (fs w) = Some bs -> readable (fs w) = true ->
  utf8_decode bs = None ->
  load_entries w = (Raise UnicodeDecodeError, w).
Proof.
  intros Hf Hr Hd. rewrite (load_entries_readable w bs Hf Hr).
  unfold read_text. rewrite Hd. reflexivity.
Qed.

(** C4, at the input where the code departs from it. With a journal
    file that holds the single byte 0xFF, [load_entries] does not
    return the empty list: [UnicodeDecodeError] leaves it. *)
Theorem load_entries_raises_on_invalid_utf8 :
  let w := World (fun _ => []) (Disk (Some [xff]) true CanWrite) [] []
                 (lit "2024-05-01 09:30") 0 in
  load_entries w = (Raise UnicodeDecodeError, w).
Proof. intros w. apply (load_entries_undecodable w [xff]); reflexivity. Qed.

End Loading.

(* ================================================================== *)
(** ** The theorems at sample inputs *)
(* ================================================================== *)

Section Samples.
Import Codec Json Journal TextFacts Runs.

Ltac wf_sample :=
  vm_compute;
  repeat match goal with
         | |- _ /\ _ => split
         | |- True => exact I
         | |- Lt = Lt => reflexivity
         | |- _ -> False =>
             let H := fresh in intros [H ?]; discriminate H
         end.

Lemma five_days_valid : Forall valid_entry five_days.
Proof.
  unfold five_days.
  repeat (apply Forall_cons;
          [unfold valid_entry; split; [wf_sample|];
           split; [cbn; tauto|]; split; [discriminate | wf_sample] |]).
  apply Forall_nil.
Qed.

(** C1 at a sample: five entries, one with quotes, a backslash, a line
    feed and characters outside ASCII. *)
Lemma save_then_load_witness :
  let w := sample_world five_days [] in
  let saved := save_entries (fun l => l) (to_vals five_days) w in
  Forall valid_entry five_days
  /\ fst saved = Ok true
  /\ readable (fs w) = true
  /\ load_entries (snd saved) = (Ok (to_vals five_days), snd saved).
Proof.
  intros w saved.
  assert (H1 : fst saved = Ok true) by (vm_compute; reflexivity).
  split; [exact five_days_valid|]. split; [exact H1|].
  split; [reflexivity|].
  exact (save_then_load (fun l => l) five_days w five_days_valid H1 eq_refl).
Defined.

(** C2, as the code has it, at a sample: every mood is in the set and
    the counts add up to the five entries. *)
Lemma tally_sums_witness :
  let w := sample_world five_days [] in
  Forall (fun e => In (e_mood e) VALID_MOODS) (heap w 0%nat)
  /\ sum_counts (rows (printed (mood_summary 0%nat) w)) = 5%nat.
Proof.
  intros w.
  assert (H : Forall (fun e => In (e_mood e) VALID_MOODS) (heap w 0%nat)).
  { eapply Forall_impl; [|exact five_days_valid]. intros e (_ & Hm & _). exact Hm. }
  split; [exact H|].
  exact (proj1 (proj2 (proj2 (tally_sums_to_known 0%nat w))) H).
Defined.

(** C3 at a sample: one answer refused, then "Happy", then a line of
    blanks. *)
Lemma add_entry_empty_text_witness :
  let w := sample_world five_days
             [lit "glad"; lit " Happy "; lit "   "; lit "next"] in
  let run := add_entry lower_ascii (fun l => l) 0%nat w in
  answers lower_ascii (stdin w) (lit " Happy ") (lit "happy")
          [lit "   "; lit "next"]
  /\ strip (lit "   ") = []
  /\ fst run = Ok 0%nat /\ heap (snd run) = heap w /\ fs (snd run) = fs w
  /\ saves (snd run) = saves w.
Proof.
  intros w run.
  assert (H1 : answers lower_ascii (stdin w) (lit " Happy ") (lit "happy")
                       [lit "   "; lit "next"]).
  { exists [lit "glad"]. split; [reflexivity|]. split.
    - apply Forall_cons; [|apply Forall_nil].
      vm_compute. intros [H|[H|[H|[]]]]; discriminate H.
    - split; [reflexivity | cbn; tauto]. }
  assert (H2 : strip (lit "   ") = []) by reflexivity.
  destruct (add_entry_empty_text lower_ascii (fun l => l) 0%nat w _ _ _ _ H1 H2)
    as (G1 & G2 & G3 & G4 & _).
  auto 10.
Defined.

(** C5 at a sample: happy and neutral tie with two entries each, happy
    is reported. *)
Lemma top_mood_witness :
  let w := sample_world [day1; day4; day4; day3] [] in
  heap w 0%nat <> []
  /\ tops (printed (mood_summary 0%nat) w) = [lit "happy"].
Proof.
  intros w.
  assert (H : heap w 0%nat <> []) by discriminate.
  split; [exact H|].
  destruct (top_mood_first_max 0%nat w H) as (top & Htop & _ & _ & _ & Htie).
  rewrite Htop. f_equal. apply Htie. reflexivity.
Defined.



(** C10 at a sample: the entry with the mood "angry" is the second of
    three; the total is 3, the counts are those of the other two. *)
Lemma unknown_mood_witness :
  let w := sample_world [day1; angry_day; day2] [] in
  heap w 0%nat = [day1] ++ angry_day :: [day2]
  /\ ~ In (e_mood angry_day) VALID_MOODS
  /\ map fst (rows (printed (mood_summary 0%nat) w)) = counts [day1; day2]
  /\ totals (printed (mood_summary 0%nat) w) = [3%nat].
Proof.
  intros w.
  assert (H1 : heap w 0%nat = [day1] ++ angry_day :: [day2]) by reflexivity.
  assert (H2 : ~ In (e_mood angry_day) VALID_MOODS).
  { vm_compute. intros [H|[H|[H|[]]]]; discriminate H. }
  destruct (unknown_mood_counts_only_in_total 0%nat w _ _ _ H1 H2)
    as (G1 & G2 & _).
  auto.
Defined.

End Samples.

(* ================================================================== *)
(** ** More about the store: [load_entries] and [save_entries] *)
(* ================================================================== *)

Section Store.
Import Codec Json Journal TextFacts Runs RoundTrip.

Variable float_repr : pystr -> pystr.

(** [load_entries] only reads: the list objects, the journal file, the
    input still to be read and the number of writes are as before,
    whatever the state of the file and however the call ends. *)
Theorem load_entries_reads_only (w : world) :
  let w' := snd (load_entries w) in
  heap w' = heap w /\ fs w' = fs w /\ stdin w' = stdin w
  /\ saves w' = saves w.
Proof.
  destruct (file (fs w)) as [bs|] eqn:Hf.
  - destruct (readable (fs w)) eqn:Hr.
    + rewrite (load_entries_readable w bs Hf Hr).
      destruct (read_text bs) as [t|]; [destruct (loads t)|]; simpl; auto.
    + rewrite (load_entries_unreadable w bs Hf Hr). simpl; auto.
  - rewrite (load_entries_missing w Hf). simpl; auto.
Qed.



(** [save_entries] never raises on a list of entries, whatever their
    strings hold: it returns [True] exactly when the write goes
    through, opens the file for writing once and leaves the list
    objects alone. *)
Theorem save_entries_never_raises (es : list entry) (w : world) :
  let run := save_entries float_repr (to_vals es) w in
  exists b, fst run = Ok b
            /\ (b = true <-> writing (fs w) = CanWrite)
            /\ saves (snd run) = S (saves w)
            /\ heap (snd run) = heap w.
Proof.
  intros run. subst run. rewrite save_entries_run.
  destruct (writing (fs w)) eqn:Hw; eexists; cbn [fst snd];
    (split; [reflexivity|]); (split; [|split; reflexivity]);
    split; congruence.
Qed.

Lemma plain_bytes (t : pystr) : Forall plain t -> Forall plain_byte (map byte_of t).
Proof.
  induction 1 as [|c t Hc _ IH]; cbn [map]; constructor; [|exact IH].
  unfold plain_byte. rewrite to_N_byte_of by (destruct Hc; lia). exact Hc.
Qed.

(** The file a successful save leaves holds nothing but line feeds and
    printable ASCII, whatever characters the entries hold; it is the
    UTF-8 encoding of what [json.dump] wrote. *)
Theorem save_entries_writes_plain_text (es : list entry) (w : world) :
  writing (fs w) = CanWrite ->
  let w' := snd (save_entries float_repr (to_vals es) w) in
  exists bs, file (fs w') = Some bs
             /\ Forall plain_byte bs
             /\ utf8_decode bs = Some (dumps float_repr (to_vals es)).
Proof.
  intros Hw w'. subst w'. rewrite save_entries_run, Hw. cbn [snd].
  eexists. split; [reflexivity|].
  split; [apply plain_bytes | apply utf8_decode_plain]; apply plain_dumps.
Qed.

(** A save that fails. When the file cannot be opened for writing,
    [save_entries] returns [False], prints the error and leaves the
    file as it was. When the disk fills up, it returns [False], prints
    the error and leaves the beginning of what it meant to write. *)
Theorem save_entries_failure (es : list entry) (w : world) :
  let run := save_entries float_repr (to_vals es) w in
  (writing (fs w) = WriteDenied ->
   fst run = Ok false /\ fs (snd run) = fs w
   /\ printed (save_entries float_repr (to_vals es)) w = [ErrorSaving])
  /\ (forall room, writing (fs w) = DiskFull room ->
      fst run = Ok false
      /\ file (fs (snd run))
         = Some (firstn room (map byte_of (dumps float_repr (to_vals es))))
      /\ printed (save_entries float_repr (to_vals es)) w = [ErrorSaving]).
Proof.
  intros run. split.
  - intros Hw.
    assert (Hrun : run = (Ok false, emit [ErrorSaving] (count_save w))).
    { subst run. rewrite save_entries_run, Hw. reflexivity. }
    rewrite Hrun. cbn [fst snd]. split; [reflexivity|]. split; [reflexivity|].
    eapply printed_emit; [exact Hrun | reflexivity].
  - intros room Hw.
    set (bs := map byte_of (dumps float_repr (to_vals es))).
    assert (Hrun : run = (Ok false,
                          emit [ErrorSaving]
                               (set_file (Some (firstn room bs)) (count_save w)))).
    { subst run. rewrite save_entries_run, Hw. reflexivity. }
    rewrite Hrun. cbn [fst snd]. split; [reflexivity|]. split; [reflexivity|].
    eapply printed_emit; [exact Hrun | reflexivity].
Qed.

(** A save replaces the whole file. After saving one list and then
    another, the file is what saving the second alone leaves, and
    loading gives the second list. *)
Theorem save_entries_replaces (es1 es2 : list entry) (w : world) :
  writing (fs w) = CanWrite -> readable (fs w) = true ->
  Forall wf_entry es2 ->
  let w1 := snd (save_entries float_repr (to_vals es1) w) in
  let w2 := snd (save_entries float_repr (to_vals es2) w1) in
  fs w2 = fs (snd (save_entries float_repr (to_vals es2) w))
  /\ fst (load_entries w2) = Ok (to_vals es2).
Proof.
  intros Hw Hr Hwf w1 w2. subst w2 w1.
  rewrite !save_entries_run, Hw. cbn [snd fs set_file count_save writing].
  rewrite Hw. cbn [snd fs set_file count_save readable writing].
  split; [rewrite Hw; reflexivity|].
  rewrite (load_entries_readable _
             (map byte_of (dumps float_repr (to_vals es2))))
    by (try reflexivity; exact Hr).
  rewrite read_text_plain by apply plain_dumps.
  rewrite loads_dumps by exact Hwf. reflexivity.
Qed.

End Store.

(* ================================================================== *)
(** ** More about [add_entry] *)
(* ================================================================== *)

Module Adding.
Import Codec Json Journal TextFacts Runs RoundTrip.

(** The mood prompt, on any input: it ends with a mood of the fixed
    set, or with [EOFError] when the input has run out. *)
Lemma read_mood_cases lower prompt (lines : list pystr) :
  (exists pr, read_mood lower prompt lines = (Raise EOFError, [], pr))
  \/ (exists m rest pr,
        read_mood lower prompt lines = (Ok m, rest, pr)
        /\ In m VALID_MOODS
        /\ (List.length rest < List.length lines)%nat).
Proof.
  induction lines as [|line lines IH].
  - left. eexists. reflexivity.
  - rewrite read_mood_cons.
    destruct (str_mem (lower (strip line)) VALID_MOODS) eqn:E.
    + right. do 3 eexists. split; [reflexivity|].
      split; [apply str_mem_In; exact E | cbn [List.length]; lia].
    + destruct IH as [[pr ->] | (m & rest & pr & -> & Hin & Hlen)].
      * left. eexists. reflexivity.
      * right. do 3 eexists. split; [reflexivity|].
        split; [exact Hin | cbn [List.length]; lia].
Qed.

Lemma lstrip_suffix (s : pystr) : exists pre, s = pre ++ lstrip s.
Proof.
  induction s as [|c s (pre & IH)].
  - exists []. reflexivity.
  - cbn [lstrip]. destruct (isspace c).
    + exists (c :: pre). cbn [app]. rewrite <- IH. reflexivity.
    + exists []. reflexivity.
Qed.

Lemma wf_str_app_r (a b : pystr) : wf_str (a ++ b) -> wf_str b.
Proof.
  induction a as [|c a IH]; cbn [app]; [tauto|].
  intros (_ & _ & H). apply IH. exact H.
Qed.

Lemma wf_str_app_l (a b : pystr) : wf_str (a ++ b) -> wf_str a.
Proof.
  induction a as [|c a IH]; cbn [app]; [intros _; exact I|].
  intros (Hc & Hn & H). cbn [wf_str]. split; [exact Hc|].
  split; [|apply IH; exact H].
  destruct a as [|d a]; [exact I | exact Hn].
Qed.

(** [strip] keeps a string well formed. *)
Lemma wf_str_strip (s : pystr) : wf_str s -> wf_str (strip s).
Proof.
  intros H. unfold strip, rstrip.
  destruct (lstrip_suffix s) as [pre Hpre].
  assert (H1 : wf_str (lstrip s)) by (rewrite Hpre in H; eapply wf_str_app_r; exact H).
  destruct (lstrip_suffix (rev (lstrip s))) as [pre' Hpre'].
  apply (f_equal (@rev codepoint)) in Hpre'. rewrite rev_involutive, rev_app_distr in Hpre'.
  rewrite Hpre' in H1. eapply wf_str_app_l. exact H1.
Qed.

Lemma wf_str_mood (m : pystr) : In m VALID_MOODS -> wf_str m.
Proof.
  intros [<-|[<-|[<-|[]]]]; vm_compute; intuition discriminate.
Qed.

(** Two ways of writing what was printed. *)
Ltac out_eq :=
  cbn [stdout emit set_file count_save set_heap set_stdin];
  repeat (rewrite <- app_assoc; cbn [app]); reflexivity.

Section Add.

Variable lower : pystr -> pystr.
Variable float_repr : pystr -> pystr.

(** A run of [add_entry] whose text is not empty, step by step. *)
Lemma add_entry_stored (r : loc) (w : world)
  (line m text_line : pystr) (rest : list pystr) :
  answers lower (stdin w) line m (text_line :: rest) ->
  strip text_line <> [] ->
  exists n,
    let e := Entry (now w) m (strip text_line) in
    let w1 := set_heap (appended (heap w) r e)
                (set_stdin rest
                   (emit (NewEntryHeader :: refusals PromptMood n ++ [PromptText]) w)) in
    add_entry lower float_repr r w
    = match writing (fs w) with
      | CanWrite =>
          (Ok r,
           emit [Saved (now w) m (emoji_get m)]
             (set_file (Some (map byte_of
                                (dumps float_repr (to_vals (heap w r ++ [e])))))
                       (count_save w1)))
      | WriteDenied => (Ok r, emit [ErrorSaving] (count_save w1))
      | DiskFull room =>
          (Ok r,
           emit [ErrorSaving]
             (set_file (Some (firstn room
                                (map byte_of
                                   (dumps float_repr (to_vals (heap w r ++ [e]))))))
                       (count_save w1)))
      end.
Proof.
  intros Hans Htext.
  assert (Hin : In m VALID_MOODS) by (destruct Hans as (? & _ & _ & _ & H); exact H).
  destruct (read_mood_answers lower PromptMood _ _ _ _ Hans) as [n Hn].
  exists n. intros e w1.
  unfold add_entry, bind, print. unfold ask_mood. cbn [stdin emit].
  rewrite Hn. unfold input. cbn [stdin set_stdin emit].
  destruct (strip text_line) as [|c t] eqn:Hs; [congruence|]. cbn [is_empty].
  unfold list_append, deref.
  cbn [heap set_heap set_stdin emit fs stdin stdout now saves].
  rewrite Nat.eqb_refl.
  match goal with
  | |- context [save_entries float_repr ?v ?x] =>
      change v with (to_vals (heap w r ++ [e]));
      replace x with w1
        by (subst w1 e; unfold set_heap, set_stdin, emit, appended;
            cbn [heap fs stdin stdout now saves];
            rewrite <- !app_assoc; reflexivity)
  end.
  rewrite save_entries_run.
  assert (Hfs : writing (fs w1) = writing (fs w)) by reflexivity.
  rewrite Hfs. destruct (writing (fs w)); try reflexivity.
  unfold emoji_of. destruct Hin as [<-|[<-|[<-|[]]]]; reflexivity.
Qed.

(** Every run of [add_entry] ends in one of three ways. *)
Lemma add_entry_cases (r : loc) (w : world) :
  let run := add_entry lower float_repr r w in
  (fst run = Raise EOFError /\ heap (snd run) = heap w /\ fs (snd run) = fs w
   /\ saves (snd run) = saves w /\ stdin (snd run) = [])
  \/ (fst run = Ok r /\ heap (snd run) = heap w /\ fs (snd run) = fs w
      /\ saves (snd run) = saves w)
  \/ (fst run = Ok r
      /\ exists m t, In m VALID_MOODS /\ t <> []
                     /\ heap (snd run) = appended (heap w) r (Entry (now w) m t)
                     /\ saves (snd run) = S (saves w)).
Proof.
  intros run. subst run.
  unfold add_entry, bind, print. unfold ask_mood. cbn [stdin emit].
  destruct (read_mood_cases lower PromptMood (stdin w))
    as [[pr ->] | (m & rest & pr & -> & Hin & _)].
  - left. cbn. auto.
  - unfold input. cbn [stdin set_stdin emit].
    destruct rest as [|text_line rest].
    + left. cbn. auto.
    + destruct (strip text_line) as [|c t] eqn:Hs; cbn [is_empty].
      * right. left. cbn. auto.
      * right. right.
        unfold list_append, deref.
        cbn [heap set_heap set_stdin emit fs stdin stdout now saves].
        rewrite Nat.eqb_refl.
        match goal with
        | |- context [save_entries float_repr ?v ?x] =>
            change v with (to_vals (heap w r ++ [Entry (now w) m (c :: t)]));
            set (w1 := x)
        end.
        rewrite save_entries_run.
        assert (Hh : heap w1 = appended (heap w) r (Entry (now w) m (c :: t)))
          by reflexivity.
        assert (Hs1 : saves w1 = saves w) by reflexivity.
        assert (Hemoji : emoji_of m = ret (emoji_get m)).
        { unfold emoji_of. destruct Hin as [<-|[<-|[<-|[]]]]; reflexivity. }
        destruct (writing (fs w1)); rewrite ?Hemoji; cbn [fst snd ret];
          (split; [reflexivity|]); exists m, (c :: t);
          (split; [exact Hin|]); (split; [discriminate|]);
          cbn [heap saves emit set_file count_save]; rewrite Hh, Hs1; auto.
Qed.

(** With a text that is not empty [add_entry] appends one entry at the
    end of the list it was given, with the time of the call, the mood
    answered and the text stripped; it returns that list, leaves the
    other lists alone and opens the journal file for writing once,
    whether or not the save succeeds. *)
Theorem add_entry_appends (r : loc) (w : world)
  (line m text_line : pystr) (rest : list pystr) :
  answers lower (stdin w) line m (text_line :: rest) ->
  strip text_line <> [] ->
  let run := add_entry lower float_repr r w in
  let e := Entry (now w) m (strip text_line) in
  fst run = Ok r
  /\ heap (snd run) r = heap w r ++ [e]
  /\ (forall l, l <> r -> heap (snd run) l = heap w l)
  /\ stdin (snd run) = rest
  /\ saves (snd run) = S (saves w).
Proof.
  intros Hans Htext run e.
  destruct (add_entry_stored r w line m text_line rest Hans Htext) as [n Hrun].
  cbv zeta in Hrun. subst run. rewrite Hrun.
  destruct (writing (fs w)); cbn [fst snd heap stdin saves emit set_file
                                  count_save set_heap set_stdin];
    unfold appended; rewrite Nat.eqb_refl;
    (split; [reflexivity|]); (split; [reflexivity|]);
    (split; [|split; reflexivity]);
    intros l Hl; apply Nat.eqb_neq in Hl; rewrite Hl; reflexivity.
Qed.

(** An entry added is an entry kept: when the write goes through and
    the file can be read, loading right after [add_entry] gives the
    list with the new entry at its end, and the script says "Saved". *)
Theorem add_entry_persists (r : loc) (w : world)
  (line m text_line : pystr) (rest : list pystr) :
  answers lower (stdin w) line m (text_line :: rest) ->
  strip text_line <> [] ->
  writing (fs w) = CanWrite -> readable (fs w) = true ->
  Forall wf_entry (heap w r) -> wf_str (now w) -> wf_str text_line ->
  let w' := snd (add_entry lower float_repr r w) in
  load_entries w' = (Ok (to_vals (heap w' r)), w')
  /\ heap w' r = heap w r ++ [Entry (now w) m (strip text_line)]
  /\ In (Saved (now w) m (emoji_get m))
        (printed (add_entry lower float_repr r) w).
Proof.
  intros Hans Htext Hw Hr Hwf Hnow Hline w'.
  assert (Hin : In m VALID_MOODS) by (destruct Hans as (? & _ & _ & _ & H); exact H).
  destruct (add_entry_stored r w line m text_line rest Hans Htext) as [n Hrun].
  cbv zeta in Hrun. rewrite Hw in Hrun.
  set (e := Entry (now w) m (strip text_line)) in *.
  assert (Hh : heap w' r = heap w r ++ [e]).
  { subst w'. rewrite Hrun. cbn [snd heap emit set_file count_save set_heap].
    unfold appended. rewrite Nat.eqb_refl. reflexivity. }
  split; [|split; [exact Hh|]].
  - rewrite Hh. subst w'. rewrite Hrun. cbn [snd].
    rewrite (load_entries_readable _
               (map byte_of (dumps float_repr (to_vals (heap w r ++ [e])))))
      by (try reflexivity; exact Hr).
    rewrite read_text_plain by apply plain_dumps.
    rewrite loads_dumps; [reflexivity|].
    apply Forall_app. split; [exact Hwf|].
    apply Forall_cons; [|apply Forall_nil].
    repeat split; [exact Hnow | apply wf_str_mood; exact Hin
                  | apply wf_str_strip; exact Hline].
  - assert (Hpr : printed (add_entry lower float_repr r) w
                  = NewEntryHeader :: refusals PromptMood n
                    ++ [PromptText; Saved (now w) m (emoji_get m)]).
    { eapply printed_emit; [exact Hrun|]. out_eq. }
    rewrite Hpr. right. apply in_or_app. right. right. left. reflexivity.
Qed.

(** No rollback. When the journal file cannot be opened for writing,
    [add_entry] still appends the entry to the list in memory: it
    prints the error, does not say "Saved" and leaves the file as it
    was. *)
Theorem add_entry_save_denied (r : loc) (w : world)
  (line m text_line : pystr) (rest : list pystr) :
  answers lower (stdin w) line m (text_line :: rest) ->
  strip text_line <> [] ->
  writing (fs w) = WriteDenied ->
  let w' := snd (add_entry lower float_repr r w) in
  heap w' r = heap w r ++ [Entry (now w) m (strip text_line)]
  /\ fs w' = fs w
  /\ In ErrorSaving (printed (add_entry lower float_repr r) w)
  /\ (forall d mo e, ~ In (Saved d mo e) (printed (add_entry lower float_repr r) w)).
Proof.
  intros Hans Htext Hw w'.
  destruct (add_entry_stored r w line m text_line rest Hans Htext) as [n Hrun].
  cbv zeta in Hrun. rewrite Hw in Hrun.
  assert (Hpr : printed (add_entry lower float_repr r) w
                = NewEntryHeader :: refusals PromptMood n
                  ++ [PromptText; ErrorSaving]).
  { eapply printed_emit; [exact Hrun|]. out_eq. }
  subst w'. rewrite Hrun, Hpr.
  cbn [snd heap fs emit count_save set_heap set_stdin].
  unfold appended. rewrite Nat.eqb_refl.
  split; [reflexivity|]. split; [reflexivity|]. split.
  - right. apply in_or_app. right. right. left. reflexivity.
  - intros d mo e [Hc|Hc]; [discriminate|].
    apply in_app_or in Hc. destruct Hc as [Hc|[Hc|[Hc|[]]]]; try discriminate.
    clear -Hc. induction n as [|n IH]; simpl in Hc.
    + destruct Hc as [Hc|[]]; discriminate.
    + destruct Hc as [Hc|[Hc|Hc]]; try discriminate. auto.
Qed.

(** [add_entry] keeps the lists valid: if every entry of a list has a
    mood of the fixed set and a text that is not empty, so does every
    entry of it afterwards, whatever is typed and however the call
    ends. *)
Theorem add_entry_keeps_valid (r l : loc) (w : world) :
  Forall entry_ok (heap w l) ->
  Forall entry_ok (heap (snd (add_entry lower float_repr r w)) l).
Proof.
  intros H.
  destruct (add_entry_cases r w)
    as [(_ & -> & _) | [(_ & -> & _) | (_ & m & t & Hm & Ht & -> & _)]];
    try exact H.
  unfold appended. destruct (Nat.eqb_spec l r) as [->|_]; [|exact H].
  apply Forall_app. split; [exact H|].
  apply Forall_cons; [split; [exact Hm | exact Ht] | apply Forall_nil].
Qed.


End Add.

End Adding.

(* ================================================================== *)
(** ** More about the listings *)
(* ================================================================== *)

Module Listing.
Import Codec Json Journal TextFacts Runs Tally Adding.






Lemma read_mood_prints lower prompt (lines : list pystr) :
  exists n, snd (read_mood lower prompt lines) = refusals prompt n.
Proof.
  induction lines as [|line lines [n IH]].
  - exists 0%nat. reflexivity.
  - rewrite read_mood_cons.
    destruct (str_mem (lower (strip line)) VALID_MOODS).
    + exists 0%nat. reflexivity.
    + destruct (read_mood lower prompt lines) as [[x y] pr]. cbn [snd] in *.
      subst pr. exists (S n). reflexivity.
Qed.

Lemma well_listed_notice (o : out) :
  shown [o] = [] -> indices [o] = [] -> announced [o] = [] -> well_listed [o].
Proof. intros H1 H2 H3. unfold well_listed. rewrite H1, H2, H3. split; reflexivity. Qed.



Section Listings.

Variable lower : pystr -> pystr.

Lemma view_all_entries_run (r : loc) (w : world) :
  view_all_entries r w
  = (Ok tt,
     emit (if is_empty (heap w r) then [NoEntriesYet]
           else AllHeader (List.length (heap w r)) :: displayed 1 (heap w r)) w).
Proof.
  unfold view_all_entries, bind, deref.
  destruct (heap w r) as [|e es] eqn:Hes; cbn [is_empty]; [reflexivity|].
  unfold print. rewrite display_from_run, emit_emit. reflexivity.
Qed.


(** [view_by_mood] on a list that is not empty, whatever is typed. *)
Lemma view_by_mood_any (r : loc) (w : world) :
  heap w r <> [] ->
  exists n,
    view_by_mood lower r w
    = (Raise EOFError, set_stdin [] (emit (refusals PromptFilter n) w))
    \/ exists m rest,
         In m VALID_MOODS
         /\ view_by_mood lower r w
            = (Ok tt,
               set_stdin rest
                 (emit (refusals PromptFilter n
                        ++ (if is_empty (filtered (heap w r) m)
                            then [NoneFound m]
                            else FilterHeader m (emoji_get m)
                                   (List.length (filtered (heap w r) m))
                                 :: displayed 1 (filtered (heap w r) m))) w)).
Proof.
  intros Hne. unfold view_by_mood, bind, deref.
  destruct (heap w r) as [|e0 es0] eqn:Hes; [congruence|]. cbn [is_empty].
  unfold ask_mood.
  destruct (read_mood_prints lower PromptFilter (stdin w)) as [n Hn].
  exists n.
  destruct (read_mood_cases lower PromptFilter (stdin w))
    as [[pr E] | (m & rest & pr & E & Hin & _)];
    rewrite E in *; cbn [snd] in Hn; subst pr.
  - left. reflexivity.
  - right. exists m, rest. split; [exact Hin|].
    destruct (filtered (e0 :: es0) m) as [|f fs] eqn:Hf; cbn [is_empty].
    + unfold print, set_stdin, emit; simpl. rewrite <- app_assoc. reflexivity.
    + rewrite (emoji_of_get m Hin). unfold ret, print. rewrite display_from_run.
      unfold set_stdin, emit; simpl. rewrite <- !app_assoc. reflexivity.
Qed.

(** [search_entries] on a list that is not empty, whatever is typed. *)
Lemma search_entries_any (r : loc) (w : world) :
  heap w r <> [] ->
  search_entries lower r w
  = match stdin w with
    | [] => (Raise EOFError, emit [PromptKeyword] w)
    | line :: rest =>
      (Ok tt,
       set_stdin rest
         (emit (PromptKeyword
                :: (if is_empty (strip line) then [NoKeyword]
                    else if is_empty (matches lower (heap w r) (lower (strip line)))
                    then [NoMatches (strip line)]
                    else SearchHeader (strip line)
                           (List.length
                              (matches lower (heap w r) (lower (strip line))))
                         :: displayed 1
                              (matches lower (heap w r) (lower (strip line))))) w))
    end.
Proof.
  intros Hne. unfold search_entries, bind, deref, input.
  destruct (heap w r) as [|e0 es0] eqn:Hes; [congruence|]. cbn [is_empty].
  destruct (stdin w) as [|line rest]; [reflexivity|].
  destruct (strip line) as [|k ks]; cbn [is_empty].
  - unfold print, set_stdin, emit; simpl. rewrite <- app_assoc. reflexivity.
  - destruct (matches lower (e0 :: es0) (lower (k :: ks))) as [|f fs];
      cbn [is_empty].
    + unfold print, set_stdin, emit; simpl. rewrite <- app_assoc. reflexivity.
    + unfold print. rewrite display_from_run.
      unfold set_stdin, emit; simpl. rewrite <- !app_assoc. reflexivity.
Qed.

Lemma listing_empty (r : loc) (w : world) :
  heap w r = [] ->
  view_all_entries r w = (Ok tt, emit [NoEntriesYet] w)
  /\ view_by_mood lower r w = (Ok tt, emit [NoEntries] w)
  /\ search_entries lower r w = (Ok tt, emit [NoEntries] w)
  /\ mood_summary r w = (Ok tt, emit [NoEntries] w).
Proof.
  intros H. unfold view_all_entries, view_by_mood, search_entries, mood_summary,
    bind, deref. rewrite H. auto.
Qed.

(** On an empty journal the four listings only print their notice:
    they ask nothing, read no input and raise nothing. *)
Theorem listings_of_empty_journal (r : loc) (w : world) :
  heap w r = [] ->
  let silent (m : M unit) (notice : out) :=
    fst (m w) = Ok tt /\ printed m w = [notice]
    /\ stdin (snd (m w)) = stdin w in
  silent (view_all_entries r) NoEntriesYet
  /\ silent (view_by_mood lower r) NoEntries
  /\ silent (search_entries lower r) NoEntries
  /\ silent (mood_summary r) NoEntries.
Proof.
  intros H silent. subst silent. cbv beta.
  destruct (listing_empty r w H) as (H1 & H2 & H3 & H4).
  rewrite (printed_emit _ _ _ _ _ H1 eq_refl), (printed_emit _ _ _ _ _ H2 eq_refl),
    (printed_emit _ _ _ _ _ H3 eq_refl), (printed_emit _ _ _ _ _ H4 eq_refl).
  rewrite H1, H2, H3, H4. cbn [fst snd stdin emit]. auto 12.
Qed.



End Listings.

(** *** The summary *)

(** The summary has one row for each mood of the fixed set, in the
    order happy, neutral, sad, also for a mood no entry has; the count
    of a row is the number of entries [view_by_mood] lists for that
    mood, and its bar has one mark for each of them. *)
Theorem summary_rows_by_mood (r : loc) (w : world) :
  heap w r <> [] ->
  let o := printed (mood_summary r) w in
  map (fun row => (fst (fst row), snd (fst row))) (rows o)
  = map (fun m => (m, List.length (filtered (heap w r) m))) VALID_MOODS
  /\ bars o
     = map (fun m => (repeat 35 (List.length (filtered (heap w r) m)),
                      List.length (filtered (heap w r) m))) VALID_MOODS.
Proof.
  intros Hne o. subst o.
  destruct (mood_summary_printed r w Hne) as (top & _ & _ & ->).
  rewrite counts_eq. split; reflexivity.
Qed.



(** When no entry has a mood of the fixed set, every row of the
    summary has the count 0 and "happy" is still reported as the most
    frequent mood. *)
Theorem summary_of_unknown_moods (r : loc) (w : world) :
  heap w r <> [] ->
  Forall (fun e => ~ In (e_mood e) VALID_MOODS) (heap w r) ->
  let o := printed (mood_summary r) w in
  tops o = [lit "happy"]
  /\ Forall (fun row => snd (fst row) = 0%nat) (rows o)
  /\ totals o = [List.length (heap w r)].
Proof.
  intros Hne Hall o. subst o.
  assert (Hz : forall m, In m VALID_MOODS ->
                         List.length (filtered (heap w r) m) = 0%nat).
  { intros m Hm. clear Hne. induction Hall as [|e es He _ IH]; [reflexivity|].
    unfold filtered in *. cbn [filter].
    destruct (str_eqb (e_mood e) m) eqn:E; [|exact IH].
    apply str_eqb_eq in E. subst m. contradiction. }
  destruct (mood_summary_printed r w Hne) as (top & Htop & _ & Hpr).
  rewrite Hpr. cbn [tops rows totals].
  rewrite tops_app, tops_row_of, rows_app, rows_row_of, totals_app, totals_row_of.
  cbn [tops rows totals app]. rewrite app_nil_r.
  rewrite counts_eq in *.
  rewrite !Hz in * by (unfold VALID_MOODS; cbn [In]; tauto).
  split; [|split; [|reflexivity]].
  - f_equal. apply (f_equal (fun m => fst (m w))) in Htop.
    vm_compute in Htop. injection Htop as Htop. symmetry. vm_compute. exact Htop.
  - cbn [map]. repeat (apply Forall_cons; [reflexivity|]). apply Forall_nil.
Qed.

End Listing.

(* ================================================================== *)
(** ** The menu loop *)
(* ================================================================== *)

Module MenuFacts.
Import Codec Json Journal TextFacts Runs Tally Adding Listing Menu.

(** *** No function of the script gives input back *)

Lemma frugal_ret {A} (a : A) : frugal (ret a).
Proof. intros w; apply Nat.le_refl. Qed.

Lemma frugal_raise {A} (e : exn) : frugal (@raise A e).
Proof. intros w; apply Nat.le_refl. Qed.

Lemma frugal_bind {A B} (m : M A) (k : A -> M B) :
  frugal m -> (forall a, frugal (k a)) -> frugal (bind m k).
Proof.
  intros Hm Hk w. unfold bind. specialize (Hm w).
  destruct (m w) as [[a|e] w1]; cbn [snd] in *; [|exact Hm].
  specialize (Hk a w1). lia.
Qed.

Lemma frugal_try {A} (m : M A) (h : exn -> M A) :
  frugal m -> (forall e, frugal (h e)) -> frugal (try_except m h).
Proof.
  intros Hm Hh w. unfold try_except. specialize (Hm w).
  destruct (m w) as [[a|e] w1]; cbn [snd] in *; [exact Hm|].
  specialize (Hh e w1). lia.
Qed.

Lemma frugal_print (o : out) : frugal (print o).
Proof. intros w; apply Nat.le_refl. Qed.

Lemma frugal_input (o : out) : frugal (input o).
Proof.
  intros w; unfold input. destruct (stdin w) eqn:E; cbn; rewrite ?E; cbn; lia.
Qed.

Lemma frugal_deref (r : loc) : frugal (deref r).
Proof. intros w; apply Nat.le_refl. Qed.

Lemma frugal_list_append (r : loc) (e : entry) : frugal (list_append r e).
Proof. intros w; apply Nat.le_refl. Qed.

Lemma frugal_emoji_of (m : pystr) : frugal (emoji_of m).
Proof.
  unfold emoji_of. destruct (emoji_lookup MOOD_EMOJI m);
    [apply frugal_ret | apply frugal_raise].
Qed.

Lemma frugal_ask_mood lower (o : out) : frugal (ask_mood lower o).
Proof.
  intros w; unfold ask_mood.
  destruct (read_mood_cases lower o (stdin w))
    as [[pr ->] | (m & rest & pr & -> & _ & Hlen)]; cbn; lia.
Qed.

Lemma frugal_display_from (es : list entry) (i : nat) : frugal (display_from i es).
Proof. intros w. rewrite display_from_run. apply Nat.le_refl. Qed.

Lemma frugal_write_file (t : pystr) : frugal (write_file t).
Proof.
  intros w. unfold write_file. cbn [fs count_save].
  destruct (writing (fs w)); destruct (utf8_encode t); apply Nat.le_refl.
Qed.

Lemma frugal_save_entries fr (v : pyval) : frugal (save_entries fr v).
Proof.
  unfold save_entries. apply frugal_try.
  - apply frugal_bind; [apply frugal_write_file | intros; apply frugal_ret].
  - intros []; try apply frugal_raise.
    apply frugal_bind; [apply frugal_print | intros; apply frugal_ret].
Qed.

Lemma frugal_now : frugal (fun w => (Ok (now w), w)).
Proof. intros w; apply Nat.le_refl. Qed.

Create HintDb frugal.
#[export] Hint Resolve frugal_ret frugal_raise frugal_print frugal_input
  frugal_deref frugal_list_append frugal_emoji_of frugal_ask_mood
  frugal_display_from frugal_save_entries frugal_now : frugal.

Ltac frugal_steps :=
  repeat first
    [ solve [auto with frugal]
    | match goal with |- frugal (if ?b then _ else _) => destruct b end
    | apply frugal_bind; [| intros ?] ].

Lemma frugal_add_entry lower fr (r : loc) : frugal (add_entry lower fr r).
Proof. unfold add_entry. frugal_steps. Qed.

Lemma frugal_view_all_entries (r : loc) : frugal (view_all_entries r).
Proof. unfold view_all_entries. frugal_steps. Qed.

Lemma frugal_view_by_mood lower (r : loc) : frugal (view_by_mood lower r).
Proof. unfold view_by_mood. frugal_steps. Qed.

Lemma frugal_search_entries lower (r : loc) : frugal (search_entries lower r).
Proof. unfold search_entries. frugal_steps. Qed.

Lemma frugal_mood_summary (r : loc) : frugal (mood_summary r).
Proof.
  intros w.
  destruct (heap w r) as [|e es] eqn:Hes.
  - destruct (listing_empty (fun s => s) r w Hes) as (_ & _ & _ & ->).
    apply Nat.le_refl.
  - destruct (mood_summary_run r w) as (top & _ & ->); [congruence|].
    apply Nat.le_refl.
Qed.

Lemma quiet_view_all_entries (r : loc) : quiet (view_all_entries r).
Proof. intros w. rewrite view_all_entries_run. cbn. auto. Qed.

(** *** How the functions called can end *)

Section Outcomes.

Variable lower : pystr -> pystr.
Variable float_repr : pystr -> pystr.

Lemma listing_ends (r : loc) (w : world) :
  fst (view_all_entries r w) = Ok tt
  /\ fst (mood_summary r w) = Ok tt
  /\ (fst (view_by_mood lower r w) = Ok tt
      \/ fst (view_by_mood lower r w) = Raise EOFError)
  /\ (fst (search_entries lower r w) = Ok tt
      \/ fst (search_entries lower r w) = Raise EOFError).
Proof.
  split; [rewrite view_all_entries_run; reflexivity|].
  destruct (heap w r) as [|e0 es0] eqn:Hes.
  - destruct (listing_empty lower r w Hes) as (_ & -> & -> & ->). auto.
  - assert (Hne : heap w r <> []) by congruence.
    split; [destruct (mood_summary_printed r w Hne) as (_ & _ & H & _); exact H|].
    split.
    + destruct (view_by_mood_any lower r w Hne)
        as [n [-> | (m & rest & _ & ->)]]; auto.
    + rewrite (search_entries_any lower r w Hne). destruct (stdin w); auto.
Qed.

Lemma add_entry_ends (r : loc) (w : world) :
  fst (add_entry lower float_repr r w) = Ok r
  \/ fst (add_entry lower float_repr r w) = Raise EOFError.
Proof.
  destruct (add_entry_cases lower float_repr r w)
    as [(H & _) | [(H & _) | (H & _)]]; auto.
Qed.

(** One turn of the loop, when a line is there to read. *)
Lemma main_loop_turn (f : nat) (r : loc) (c : console)
  (answer : pystr) (rest : list pystr) :
  stdin (inner c) = answer :: rest ->
  main_loop lower float_repr (S f) r c
  = let c1 := Console (set_stdin rest (inner c))
                      (screen c ++ [MenuShown; PromptChoice]) in
    let choice := strip answer in
    let continue (x : result unit * console) :=
      match x with
      | (Ok _, c') => main_loop lower float_repr f r c'
      | (Raise e, c') => Some (Raise e, c')
      end in
    if str_eqb choice (lit "1") then
      match call (add_entry lower float_repr r) c1 with
      | (Ok r', c') => main_loop lower float_repr f r' c'
      | (Raise e, c') => Some (Raise e, c')
      end
    else if str_eqb choice (lit "2") then continue (call (view_all_entries r) c1)
    else if str_eqb choice (lit "3") then continue (call (view_by_mood lower r) c1)
    else if str_eqb choice (lit "4") then continue (call (mood_summary r) c1)
    else if str_eqb choice (lit "5") then continue (call (search_entries lower r) c1)
    else if str_eqb choice (lit "6") then Some (Ok tt, say [GoodbyeQuit] c1)
    else main_loop lower float_repr f r (say [InvalidChoice] c1).
Proof.
  intros H. cbn [main_loop]. cbn [inner say]. rewrite H. reflexivity.
Qed.

(** The loop ends on every input: normally, or with the [EOFError] of
    a function it called. *)
Lemma main_loop_ends (fuel : nat) :
  forall (r : loc) (c : console),
    (List.length (stdin (inner c)) < fuel)%nat ->
    exists res c',
      main_loop lower float_repr fuel r c = Some (res, c')
      /\ (res = Ok tt \/ res = Raise EOFError).
Proof.
  induction fuel as [|f IH]; intros r c Hlen; [lia|].
  destruct (stdin (inner c)) as [|answer rest] eqn:Hin.
  - cbn [main_loop]. cbn [inner say]. rewrite Hin. eauto.
  - rewrite (main_loop_turn f r c answer rest Hin). cbv zeta.
    cbn [List.length] in Hlen.
    set (c1 := Console (set_stdin rest (inner c))
                       (screen c ++ [MenuShown; PromptChoice])).
    assert (Hc1 : stdin (inner c1) = rest) by reflexivity.
    assert (Hgo : forall (m : M unit),
               frugal m ->
               (fst (m (inner c1)) = Ok tt \/ fst (m (inner c1)) = Raise EOFError) ->
               exists res c',
                 match call m c1 with
                 | (Ok _, c') => main_loop lower float_repr f r c'
                 | (Raise e, c') => Some (Raise e, c')
                 end = Some (res, c')
                 /\ (res = Ok tt \/ res = Raise EOFError)).
    { intros m Hm Hend. unfold call. specialize (Hm (inner c1)).
      destruct Hend as [-> | ->].
      - apply IH. cbn [inner]. rewrite Hc1 in Hm. lia.
      - eauto. }
    destruct (listing_ends r (inner c1)) as (E2 & E4 & E3 & E5).
    repeat match goal with
           | |- context [if ?b then _ else _] => destruct b
           end.
    + pose proof (frugal_add_entry lower float_repr r (inner c1)) as Hm.
      unfold call.
      destruct (add_entry_ends r (inner c1)) as [-> | ->].
      * apply IH. cbn [inner]. rewrite Hc1 in Hm. lia.
      * eauto.
    + apply Hgo; [apply frugal_view_all_entries | auto].
    + apply Hgo; [apply frugal_view_by_mood | auto].
    + apply Hgo; [apply frugal_mood_summary | auto].
    + apply Hgo; [apply frugal_search_entries | auto].
    + eauto.
    + apply IH. cbn [inner say]. rewrite Hc1. lia.
Qed.

(** The list of the session only grows, by entries that are valid;
    the other lists stay as they are. *)
Lemma main_loop_grows (fuel : nat) :
  forall (r : loc) (c : console) res c',
    main_loop lower float_repr fuel r c = Some (res, c') ->
    exists added,
      heap (inner c') r = heap (inner c) r ++ added
      /\ Forall entry_ok added
      /\ (forall l, l <> r -> heap (inner c') l = heap (inner c) l).
Proof.
  induction fuel as [|f IH]; intros r c res c' Hrun; [discriminate Hrun|].
  assert (Hnil : exists added : list entry,
             heap (inner c) r = heap (inner c) r ++ added
             /\ Forall entry_ok added
             /\ (forall l, l <> r -> heap (inner c) l = heap (inner c) l)).
  { exists []. rewrite app_nil_r. auto. }
  destruct (stdin (inner c)) as [|answer rest] eqn:Hin.
  - cbn [main_loop] in Hrun. cbn [inner say] in Hrun. rewrite Hin in Hrun.
    injection Hrun as <- <-. exact Hnil.
  - rewrite (main_loop_turn f r c answer rest Hin) in Hrun. cbv zeta in Hrun.
    set (c1 := Console (set_stdin rest (inner c))
                       (screen c ++ [MenuShown; PromptChoice])) in *.
    assert (Hh1 : heap (inner c1) = heap (inner c)) by reflexivity.
    clearbody c1.
    assert (Hgo : forall (m : M unit),
               quiet m ->
               match call m c1 with
               | (Ok _, c2) => main_loop lower float_repr f r c2
               | (Raise e, c2) => Some (Raise e, c2)
               end = Some (res, c') ->
               exists added,
                 heap (inner c') r = heap (inner c) r ++ added
                 /\ Forall entry_ok added
                 /\ (forall l, l <> r -> heap (inner c') l = heap (inner c) l)).
    { intros m Hm H. unfold call in H.
      destruct (Hm (inner c1)) as (Hq & _).
      destruct (fst (m (inner c1))).
      - apply IH in H. cbn [inner] in H. rewrite Hq, Hh1 in H. exact H.
      - injection H as <- <-. cbn [inner]. rewrite Hq, Hh1. exact Hnil. }
    repeat match type of Hrun with
           | context [if ?b then _ else _] => destruct b
           end.
    + unfold call in Hrun.
      destruct (add_entry_cases lower float_repr r (inner c1))
        as [(H1 & H2 & _) | [(H1 & H2 & _) | (H1 & m & t & Hm & Ht & H2 & _)]];
        rewrite H1 in Hrun.
      * injection Hrun as <- <-. cbn [inner]. rewrite H2, Hh1. exact Hnil.
      * apply IH in Hrun. cbn [inner] in Hrun. rewrite H2, Hh1 in Hrun. exact Hrun.
      * apply IH in Hrun. cbn [inner] in Hrun. rewrite H2, Hh1 in Hrun.
        destruct Hrun as (added & Ha & Hok & Hother).
        exists (Entry (now (inner c1)) m t :: added).
        unfold appended in Ha, Hother. rewrite Nat.eqb_refl in Ha.
        rewrite Ha, <- app_assoc. split; [reflexivity|].
        split; [apply Forall_cons; [split; [exact Hm | exact Ht] | exact Hok]|].
        intros l Hl. rewrite (Hother l Hl).
        apply Nat.eqb_neq in Hl. rewrite Hl. reflexivity.
    + apply (Hgo _ (quiet_view_all_entries r) Hrun).
    + apply (Hgo _ (quiet_view_by_mood lower r) Hrun).
    + apply (Hgo _ (quiet_mood_summary r) Hrun).
    + apply (Hgo _ (quiet_search_entries lower r) Hrun).
    + injection Hrun as <- <-. cbn [inner say]. rewrite Hh1. exact Hnil.
    + apply IH in Hrun. cbn [inner say] in Hrun. rewrite Hh1 in Hrun. exact Hrun.
Qed.

(** The screen is only written: what a session does to the world does
    not depend on what was on the screen. *)
Lemma main_loop_screen (fuel : nat) :
  forall (r : loc) (w : world) (s1 s2 : list line),
    outcome (main_loop lower float_repr fuel r (Console w s1))
    = outcome (main_loop lower float_repr fuel r (Console w s2)).
Proof.
  induction fuel as [|f IH]; intros r w s1 s2; [reflexivity|].
  destruct (stdin w) as [|answer rest] eqn:Hin.
  - cbn [main_loop]. cbn [inner say]. rewrite Hin. reflexivity.
  - rewrite (main_loop_turn f r (Console w s1) answer rest Hin),
      (main_loop_turn f r (Console w s2) answer rest Hin).
    cbv zeta. cbn [inner screen].
    unfold call. cbn [inner screen].
    repeat match goal with
           | |- context [if ?b then _ else _] => destruct b
           end;
      try match goal with
          | |- context [fst (?m (set_stdin rest w))] =>
              destruct (fst (m (set_stdin rest w)))
          end;
      try reflexivity; try apply IH.
Qed.

End Outcomes.

End MenuFacts.

Section Sessions.
Import Codec Json Journal TextFacts Runs Adding Listing Menu MenuFacts.

Variable lower : pystr -> pystr.
Variable float_repr : pystr -> pystr.


(** A session only adds to the journal. Whatever is typed and however
    the session ends, its list is the list it started with followed by
    the entries added, each with a mood of the fixed set and a text
    that is not empty; nothing is removed, changed or reordered, and
    the other lists are not touched. *)
Theorem session_only_adds (r : loc) (c : console)
  (res : result unit) (c' : console) :
  session lower float_repr r c = Some (res, c') ->
  exists added,
    heap (inner c') r = heap (inner c) r ++ added
    /\ Forall entry_ok added
    /\ (forall l, l <> r -> heap (inner c') l = heap (inner c) l).
Proof. unfold session. apply main_loop_grows. Qed.

(** The end of the input. At the menu it is a way to quit: the loop
    says goodbye and ends normally. Right after the choice 1, or after
    the choice 3 or 5 on a journal that is not empty, it is not: the
    [EOFError] of the prompt that follows leaves the loop, with the
    journal and the file as they were. *)
Theorem end_of_input (r : loc) (c : console) :
  (stdin (inner c) = [] ->
   session lower float_repr r c
   = Some (Ok tt, say [MenuShown; PromptChoice; GoodbyeEOF] c))
  /\ (forall answer,
        stdin (inner c) = [answer] ->
        strip answer = lit "1"
        \/ (heap (inner c) r <> []
            /\ (strip answer = lit "3" \/ strip answer = lit "5")) ->
        exists c',
          session lower float_repr r c = Some (Raise EOFError, c')
          /\ heap (inner c') = heap (inner c)
          /\ fs (inner c') = fs (inner c)).
Proof.
  split.
  - intros H. unfold session. rewrite H. cbn [List.length main_loop].
    cbn [inner say]. rewrite H. unfold say. cbn [inner screen].
    rewrite <- app_assoc. reflexivity.
  - intros answer H Hchoice. unfold session. rewrite H. cbn [List.length].
    rewrite (main_loop_turn lower float_repr 1 r c answer [] H). cbv zeta.
    set (c1 := Console (set_stdin [] (inner c))
                       (screen c ++ [MenuShown; PromptChoice])).
    destruct Hchoice as [-> | [Hne [-> | ->]]].
    + change (str_eqb (lit "1") (lit "1")) with true. cbv iota.
      eexists. split; [reflexivity|]. split; reflexivity.
    + change (str_eqb (lit "3") (lit "1")) with false.
      change (str_eqb (lit "3") (lit "2")) with false.
      change (str_eqb (lit "3") (lit "3")) with true. cbv iota.
      assert (Hne1 : heap (inner c1) r <> []) by exact Hne.
      destruct (view_by_mood_any lower r (inner c1) Hne1)
        as [n [Hrun | (m & rest & _ & Hrun)]].
      * unfold call. rewrite Hrun. cbn [fst snd].
        eexists. split; [reflexivity|]. split; reflexivity.
      * exfalso. unfold view_by_mood, bind, deref in Hrun.
        destruct (heap (inner c1) r); [congruence|]. cbn [is_empty] in Hrun.
        unfold ask_mood in Hrun. cbn [stdin inner c1 set_stdin read_mood] in Hrun.
        discriminate Hrun.
    + change (str_eqb (lit "5") (lit "1")) with false.
      change (str_eqb (lit "5") (lit "2")) with false.
      change (str_eqb (lit "5") (lit "3")) with false.
      change (str_eqb (lit "5") (lit "4")) with false.
      change (str_eqb (lit "5") (lit "5")) with true. cbv iota.
      assert (Hne1 : heap (inner c1) r <> []) by exact Hne.
      pose proof (search_entries_any lower r (inner c1) Hne1) as Hrun.
      assert (Hs : stdin (inner c1) = []) by reflexivity.
      rewrite Hs in Hrun.
      unfold call. rewrite Hrun. cbn [fst snd].
      eexists. split; [reflexivity|]. split; reflexivity.
Qed.

(** Choices the menu does not know change nothing. A session whose
    input starts with such lines leaves the world as the session
    without them does, and ends the same way; only the screen shows
    the difference. *)
Theorem unknown_choices_are_skipped (junk rest : list pystr) :
  Forall unknown_choice junk ->
  forall (fuel : nat) (r : loc) (c : console) (s : list line),
    stdin (inner c) = junk ++ rest ->
    outcome (main_loop lower float_repr (List.length junk + fuel) r c)
    = outcome (main_loop lower float_repr fuel r
                 (Console (set_stdin rest (inner c)) s)).
Proof.
  induction 1 as [|answer junk Hj _ IH]; intros fuel r c s Hin.
  - cbn [List.length app Nat.add] in *.
    destruct c as [w s0]. cbn [inner] in *.
    rewrite (main_loop_screen lower float_repr fuel r w s0 s).
    replace (set_stdin rest w) with w; [reflexivity|].
    destruct w; cbn in *. subst. reflexivity.
  - cbn [List.length Nat.add].
    rewrite (main_loop_turn lower float_repr _ r c answer (junk ++ rest) Hin).
    cbv zeta. unfold unknown_choice in Hj.
    assert (Hno : forall k, In k [lit "1"; lit "2"; lit "3"; lit "4"; lit "5"; lit "6"] ->
                            str_eqb (strip answer) k = false).
    { intros k Hk. apply str_eqb_neq. intros E. apply Hj. rewrite E. exact Hk. }
    rewrite !Hno by (cbn [In]; tauto).
    rewrite (IH fuel r _ s) by reflexivity.
    reflexivity.
Qed.

End Sessions.

(* ================================================================== *)
(** ** The further theorems at sample inputs *)
(* ================================================================== *)

Section MoreSamples.
Import Codec Json Journal TextFacts Runs RoundTrip Adding Listing Menu MenuFacts.

Lemma five_days_wf : Forall wf_entry five_days.
Proof. eapply Forall_impl; [|exact five_days_valid]. apply valid_wf. Qed.

Lemma five_days_ok : Forall entry_ok five_days.
Proof.
  eapply Forall_impl; [|exact five_days_valid].
  intros e (_ & Hm & Ht & _). split; assumption.
Qed.

Ltac refuse :=
  vm_compute;
  let H := fresh in
  intros H;
  repeat (destruct H as [H|H]; [discriminate H|]);
  exact H.

Lemma sad_answer (rest : list pystr) :
  answers lower_ascii (lit "glad" :: lit " Sad " :: rest)
          (lit " Sad ") (lit "sad") rest.
Proof.
  exists [lit "glad"]. split; [reflexivity|]. split.
  - apply Forall_cons; [refuse | apply Forall_nil].
  - split; [reflexivity | cbn; tauto].
Qed.


Lemma save_entries_writes_plain_text_witness :
  let w := sample_world [] [] in
  writing (fs w) = CanWrite
  /\ exists bs,
       file (fs (snd (save_entries (fun l => l) (to_vals five_days) w))) = Some bs
       /\ Forall plain_byte bs
       /\ utf8_decode bs = Some (dumps (fun l => l) (to_vals five_days)).
Proof.
  intros w. split; [reflexivity|].
  exact (save_entries_writes_plain_text (fun l => l) five_days w eq_refl).
Defined.

Lemma save_entries_failure_witness :
  let w1 := world_on (Disk (Some [x5b; x5d]) true WriteDenied) [] [] in
  let w2 := world_on (Disk (Some [x5b; x5d]) true (DiskFull 10)) [] [] in
  (writing (fs w1) = WriteDenied
   /\ fst (save_entries (fun l => l) (to_vals five_days) w1) = Ok false
   /\ fs (snd (save_entries (fun l => l) (to_vals five_days) w1)) = fs w1)
  /\ (writing (fs w2) = DiskFull 10
      /\ fst (save_entries (fun l => l) (to_vals five_days) w2) = Ok false
      /\ file (fs (snd (save_entries (fun l => l) (to_vals five_days) w2)))
         = Some (firstn 10 (map byte_of (dumps (fun l => l) (to_vals five_days))))).
Proof.
  intros w1 w2.
  destruct (save_entries_failure (fun l => l) five_days w1) as (A & _).
  destruct (save_entries_failure (fun l => l) five_days w2) as (_ & B).
  destruct (A eq_refl) as (A1 & A2 & _).
  destruct (B 10%nat eq_refl) as (B1 & B2 & _).
  split; [split; [reflexivity | split; [exact A1 | exact A2]]|].
  split; [reflexivity | split; [exact B1 | exact B2]].
Defined.

Lemma save_entries_replaces_witness :
  let w := sample_world [] [] in
  let w1 := snd (save_entries (fun l => l) (to_vals [angry_day; day2]) w) in
  let w2 := snd (save_entries (fun l => l) (to_vals five_days) w1) in
  writing (fs w) = CanWrite /\ readable (fs w) = true
  /\ Forall wf_entry five_days
  /\ fs w2 = fs (snd (save_entries (fun l => l) (to_vals five_days) w))
  /\ fst (load_entries w2) = Ok (to_vals five_days).
Proof.
  intros w w1 w2.
  split; [reflexivity|]. split; [reflexivity|]. split; [exact five_days_wf|].
  exact (save_entries_replaces (fun l => l) [angry_day; day2] five_days w
           eq_refl eq_refl five_days_wf).
Defined.

Lemma add_entry_appends_witness :
  let w := sample_world five_days
             [lit "glad"; lit " Sad "; lit "  Long walk  "; lit "6"] in
  let run := add_entry lower_ascii (fun l => l) 0%nat w in
  answers lower_ascii (stdin w) (lit " Sad ") (lit "sad")
          [lit "  Long walk  "; lit "6"]
  /\ strip (lit "  Long walk  ") <> []
  /\ fst run = Ok 0%nat
  /\ heap (snd run) 0%nat
     = five_days ++ [Entry (lit "2024-05-01 09:30") (lit "sad") (lit "Long walk")]
  /\ stdin (snd run) = [lit "6"].
Proof.
  intros w run.
  assert (H1 : answers lower_ascii (stdin w) (lit " Sad ") (lit "sad")
                       [lit "  Long walk  "; lit "6"]) by apply sad_answer.
  assert (H2 : strip (lit "  Long walk  ") <> []) by (vm_compute; discriminate).
  destruct (Adding.add_entry_appends lower_ascii (fun l => l) 0%nat w _ _ _ _ H1 H2)
    as (G1 & G2 & _ & G4 & _).
  split; [exact H1|]. split; [exact H2|]. split; [exact G1|].
  split; [exact G2 | exact G4].
Defined.

Lemma add_entry_persists_witness :
  let w := sample_world five_days
             [lit "glad"; lit " Sad "; lit "  Long walk  "; lit "6"] in
  let w' := snd (add_entry lower_ascii (fun l => l) 0%nat w) in
  answers lower_ascii (stdin w) (lit " Sad ") (lit "sad")
          [lit "  Long walk  "; lit "6"]
  /\ strip (lit "  Long walk  ") <> []
  /\ writing (fs w) = CanWrite /\ readable (fs w) = true
  /\ Forall wf_entry (heap w 0%nat) /\ wf_str (now w)
  /\ wf_str (lit "  Long walk  ")
  /\ load_entries w' = (Ok (to_vals (heap w' 0%nat)), w').
Proof.
  intros w w'.
  assert (H1 : answers lower_ascii (stdin w) (lit " Sad ") (lit "sad")
                       [lit "  Long walk  "; lit "6"]) by apply sad_answer.
  assert (H2 : strip (lit "  Long walk  ") <> []) by (vm_compute; discriminate).
  assert (H3 : wf_str (now w)) by (vm_compute; intuition discriminate).
  assert (H4 : wf_str (lit "  Long walk  ")) by (vm_compute; intuition discriminate).
  destruct (Adding.add_entry_persists lower_ascii (fun l => l) 0%nat w _ _ _ _
              H1 H2 eq_refl eq_refl five_days_wf H3 H4) as (G & _).
  split; [exact H1|]. split; [exact H2|]. split; [reflexivity|].
  split; [reflexivity|]. split; [exact five_days_wf|]. split; [exact H3|].
  split; [exact H4 | exact G].
Defined.

Lemma add_entry_save_denied_witness :
  let w := world_on (Disk None true WriteDenied) five_days
             [lit "glad"; lit " Sad "; lit "  Long walk  "; lit "6"] in
  let w' := snd (add_entry lower_ascii (fun l => l) 0%nat w) in
  answers lower_ascii (stdin w) (lit " Sad ") (lit "sad")
          [lit "  Long walk  "; lit "6"]
  /\ strip (lit "  Long walk  ") <> []
  /\ writing (fs w) = WriteDenied
  /\ heap w' 0%nat
     = five_days ++ [Entry (lit "2024-05-01 09:30") (lit "sad") (lit "Long walk")]
  /\ fs w' = fs w.
Proof.
  intros w w'.
  assert (H1 : answers lower_ascii (stdin w) (lit " Sad ") (lit "sad")
                       [lit "  Long walk  "; lit "6"]) by apply sad_answer.
  assert (H2 : strip (lit "  Long walk  ") <> []) by (vm_compute; discriminate).
  destruct (Adding.add_entry_save_denied lower_ascii (fun l => l) 0%nat w _ _ _ _
              H1 H2 eq_refl) as (G1 & G2 & _).
  split; [exact H1|]. split; [exact H2|]. split; [reflexivity|].
  split; [exact G1 | exact G2].
Defined.

Lemma add_entry_keeps_valid_witness :
  let w := sample_world five_days
             [lit "glad"; lit " Sad "; lit "  Long walk  "; lit "6"] in
  Forall entry_ok (heap w 0%nat)
  /\ Forall entry_ok (heap (snd (add_entry lower_ascii (fun l => l) 0%nat w)) 0%nat).
Proof.
  intros w. split; [exact five_days_ok|].
  exact (Adding.add_entry_keeps_valid lower_ascii (fun l => l) 0%nat 0%nat w
           five_days_ok).
Defined.


Lemma listings_of_empty_journal_witness :
  let w := sample_world [] [lit "happy"] in
  heap w 0%nat = []
  /\ printed (view_by_mood lower_ascii 0%nat) w = [NoEntries]
  /\ stdin (snd (view_by_mood lower_ascii 0%nat w)) = [lit "happy"]
  /\ printed (view_all_entries 0%nat) w = [NoEntriesYet].
Proof.
  intros w.
  destruct (Listing.listings_of_empty_journal lower_ascii 0%nat w eq_refl)
    as ((_ & A & _) & (_ & B1 & B2) & _).
  split; [reflexivity|]. split; [exact B1|]. split; [exact B2 | exact A].
Defined.


Lemma summary_rows_by_mood_witness :
  let w := sample_world five_days [] in
  heap w 0%nat <> []
  /\ map (fun row => (fst (fst row), snd (fst row)))
         (rows (printed (mood_summary 0%nat) w))
     = [(lit "happy", 3%nat); (lit "neutral", 1%nat); (lit "sad", 1%nat)].
Proof.
  intros w.
  assert (H : heap w 0%nat <> []) by discriminate.
  split; [exact H|].
  destruct (Listing.summary_rows_by_mood 0%nat w H) as (G & _).
  rewrite G. reflexivity.
Defined.


Lemma summary_of_unknown_moods_witness :
  let w := sample_world [angry_day; angry_day] [] in
  heap w 0%nat <> []
  /\ Forall (fun e => ~ In (e_mood e) VALID_MOODS) (heap w 0%nat)
  /\ tops (printed (mood_summary 0%nat) w) = [lit "happy"]
  /\ totals (printed (mood_summary 0%nat) w) = [2%nat].
Proof.
  intros w.
  assert (H : heap w 0%nat <> []) by discriminate.
  assert (H' : Forall (fun e => ~ In (e_mood e) VALID_MOODS) (heap w 0%nat)).
  { repeat (apply Forall_cons; [refuse|]). apply Forall_nil. }
  destruct (Listing.summary_of_unknown_moods 0%nat w H H') as (G1 & _ & G3).
  auto.
Defined.

Lemma session_only_adds_witness :
  let c := Console (sample_world [day1]
                      [lit "1"; lit "sad"; lit "Rough day"; lit "4"; lit "6"]) [] in
  exists res c',
    session lower_ascii (fun l => l) 0%nat c = Some (res, c')
    /\ exists added,
         heap (inner c') 0%nat = heap (inner c) 0%nat ++ added
         /\ Forall entry_ok added.
Proof.
  intros c.
  destruct (main_loop_ends lower_ascii (fun l => l)
              (S (List.length (stdin (inner c)))) 0%nat c (Nat.lt_succ_diag_r _))
    as (res & c' & H & _).
  exists res, c'. split; [exact H|].
  destruct (session_only_adds lower_ascii (fun l => l) 0%nat c res c' H)
    as (added & G1 & G2 & _).
  exists added. auto.
Defined.

Lemma end_of_input_witness :
  let c0 := Console (sample_world five_days []) [] in
  let c1 := Console (sample_world five_days [lit " 1 "]) [] in
  (stdin (inner c0) = []
   /\ session lower_ascii (fun l => l) 0%nat c0
      = Some (Ok tt, say [MenuShown; PromptChoice; GoodbyeEOF] c0))
  /\ (stdin (inner c1) = [lit " 1 "] /\ strip (lit " 1 ") = lit "1"
      /\ exists c',
           session lower_ascii (fun l => l) 0%nat c1 = Some (Raise EOFError, c')
           /\ heap (inner c') = heap (inner c1)).
Proof.
  intros c0 c1.
  destruct (end_of_input lower_ascii (fun l => l) 0%nat c0) as (A & _).
  destruct (end_of_input lower_ascii (fun l => l) 0%nat c1) as (_ & B).
  split; [split; [reflexivity | exact (A eq_refl)]|].
  split; [reflexivity|]. split; [reflexivity|].
  destruct (B (lit " 1 ") eq_refl (or_introl eq_refl)) as (c' & B1 & B2 & _).
  exists c'. auto.
Defined.

Lemma unknown_choices_are_skipped_witness :
  let junk := [lit "7"; lit "help"] in
  let rest := [lit "2"; lit "6"] in
  let c := Console (sample_world five_days (junk ++ rest)) [] in
  Forall unknown_choice junk
  /\ stdin (inner c) = junk ++ rest
  /\ outcome (main_loop lower_ascii (fun l => l) (2 + 3) 0%nat c)
     = outcome (main_loop lower_ascii (fun l => l) 3 0%nat
                  (Console (set_stdin rest (inner c)) [])).
Proof.
  intros junk rest c.
  assert (H : Forall unknown_choice junk).
  { repeat (apply Forall_cons; [unfold unknown_choice; refuse|]). apply Forall_nil. }
  split; [exact H|]. split; [reflexivity|].
  exact (unknown_choices_are_skipped lower_ascii (fun l => l) junk rest H
           3%nat 0%nat c [] eq_refl).
Defined.

End MoreSamples.
